(* ===== verification/_CoqProject ===== *)
-Q . S2P
Prelude.v
Frame.v
MotionBlur.v
Uniforms.v
Compositor.v
Quantized.v
HalfFloat.v
Audio.v
Scene.v
Visualizer.v
Rotation64.v
RenderLoop.v
