(* ===== verification/Prelude.v ===== *)
(** * A verification development of Music-Shader-Three.js (src/src/app.js)

    The program renders an icosahedron whose shader is driven by the
    loudness of a looping audio track, and post-processes every frame
    with an accumulation motion blur.  Its parts, all in src/src/app.js:

    - the audio source: the [Visualizer] class (lines 22-55) wraps a
      [THREE.Audio] sound, a [THREE.AudioLoader] and a
      [THREE.AudioAnalyser] with fftSize 32; [load] decodes a track
      asynchronously and, in the decode callback, loops it at volume 0.5
      and plays it; [getFrequency] is the analyser's average of its byte
      frequency bins;
    - the uniform binder: the shader material's [uniforms], a JS object
      from names to [{value}] boxes; [startApp] creates [uTime] (line 92),
      the [Visualizer] constructor creates the audio slot (line 26),
      [Visualizer.update] writes [getFrequency()/50] (lines 50-54) and the
      tick callback writes [timestamp/1000] (lines 165-166);
    - the frame compositor: a [ShaderPass] running [BlendShader] with
      [mixRatio = 0.725] whose [tDiffuse2] texture IS the render target of
      a [SavePass] (lines 131-137), that [SavePass] and a [CopyShader]
      output pass (lines 139-153), appended to the EffectComposer of
      render/init.js after its scene render pass;
    - the render loop: the [useTick] callback (lines 155-167) calls
      [visualizer.update()], turns the mesh by 0.05 rad on each axis and
      sets [uTime]; the host then runs the composer;
    - the scene set-up: two lights (lines 68-70) and the icosahedron mesh
      (lines 86-94, with the visualizer's audio listener as its child,
      lines 28-29) added to the host's scene (line 100).
    The render loop is the only caller: it pulls the amplitude from the
    visualizer, which writes the uniforms object; the host draws the scene
    from those uniforms and runs the compositor, whose passes share the
    save target through a texture reference.

    Files, in the order of _CoqProject, and what they model:
    - [Prelude] (this file): GLSL's [mix] on [Q], powers, weighted sums,
      the shared lemmas, the [viz] hint databases and the [qsolve] tactic.
    - [Frame]: [vec4] colours; textures as functions from texels to
      colours (what a fragment shader samples); texture equivalence [≡]
      as a setoid with [Proper] instances; [BlendShader] and [CopyShader]
      as fragment programs ([blend_frag], [copy_frag]); render targets
      ([RenderTarget], [RTId]) and the 8-bit unsigned-normalised storage
      ([unorm8_level], [store_conv]) of [UnsignedByteType] targets.
    - [MotionBlur]: the contract of the compositor as the classes
      [BlurCompositor] (operations) and [BlurContract] (laws): each tick
      shows [mix(C, A, ratio)] ([blur_output]) and keeps it, in the
      history target's format, as the next history ([blur_step]);
      [run_history] iterates it.  [present_all_refines] lifts a lawful
      compositor to any sequence of ticks.
    - [Uniforms]: the uniforms object as [gmap string Uniform]; the
      assignment [u[name] = {value}] ([assign_uniform]) and the boxed
      write [u[name].value = v] ([set_uniform_value]), which returns a
      [TypeError] on a missing slot; shader reads with GLSL's default 0.
    - [Compositor]: [EffectComposer.render] ([composer_render]) over a
      store [gmap RTId RenderTarget] with the ping-pong buffers swapped
      after passes with [needsSwap], the three kinds of pass
      ([pass_render]) with their mutable uniform objects, and the set-up
      of lines 124-153 ([make_save_pass], [make_blend_pass],
      [make_output_pass], [setup_postprocessing]).  [composer_ok] is its
      well-formedness; [composer_render_spec] is the one-tick refinement
      lemma and the instance [composer_contract] discharges [BlurContract].
    - [Quantized]: the 8-bit history of the save target, level by level:
      [level_step] is one tick of one channel, on levels [Z]; the
      section [Iterate] shows that iterating a monotone map of the 256
      levels settles.
    - [HalfFloat]: what the composer's [HalfFloatType] buffers store, a
      binary16 value rounded to nearest even ([half_round]), its error
      and its monotonicity, and the 8-bit history kept through them
      ([blur_step_half], [run_history_half], [level_step_half]).
    - [Audio]: [THREE.Audio] ([play], [setBuffer], [setLoop],
      [setVolume]) and [THREE.AudioAnalyser] ([getFrequencyData],
      [getAverageFrequency]) with byte bins ([Byte.byte]).
    - [Scene]: the scene graph as [Object3D] values with their
      children, [Object3D.add] ([add]), the lights and the geometry.
    - [Visualizer]: the class: constructor ([visualizer_new] and, for
      the listener, [visualizer_attach]), [load] as a queued request,
      the decode callback [on_decoded], [getFrequency], [update].
    - [Rotation64]: [ico.rotation] as three binary64 doubles (Rocq's
      primitive [float], IEEE 754 round to nearest even, as JavaScript
      numbers): the initial turn of line 148 and the per-tick turn of
      lines 159-161 ([turn64]), and a checked computation of their drift.
    - [RenderLoop]: the application state [App], [startApp], the tick
      callback [tick], one host refresh [frame] (callback, then the
      composer on the scene drawn by an abstract [draw]), the decode event
      [decoded], and the life cycle [step] on [Idle | Running app] with
      [reachable] its reflexive-transitive closure from [Idle];
      [reachable_ind] and [reachable_preserved] are the rule inductions
      the invariants use; [spec_uniforms] and [spec_scenes] are the
      abstract specification of a frame.  The rotation field is the
      [Euler64] of [Rotation64].

    What the theorems show (claim ids of PROJECT.json):
    - compositor, exact buffers: C1 the set-up of app.js refines the
      contract over any number of ticks; C2 closed form of the history
      (the scene rendered k ticks ago weighs (1 - ratio) ratio^k); C3
      geometric decay towards a constant scene; C4 with the 8-bit save
      target a one-level residual never clears; C5 the first frame is the
      scene dimmed by 0.275, not the scene; C17 the 8-bit store round
      trip (a level read back and stored again is unchanged, a colour
      stored and read back is within half a level); C18 under a constant
      scene every 8-bit channel stops changing within 256 ticks
      (termination: the level sequence is monotone and has 256 values).
    - compositor, binary16 buffers: C16 after 20 ticks of a constant
      scene the history is within three levels of it; C24 for a ratio in
      [2/3, 1] a one-level residual never clears; C25 under a scene at
      level K every channel comes to rest within 256 ticks at most two
      levels from K; C29 at ratio 0.725 a history at level 255 over a
      scene at 253 never moves: two-level residues stick; C30 no residue
      of three levels or more sticks; C31 the history stays within
      (1/510 + (2 - ratio) 2^-11)/(1 - ratio), 2.4 levels, of the exact
      one.
    - render loop: C6 each refresh shows the blend of the scene drawn from
      the uniforms just written (sampling, uniform writes, render, blend,
      save, present in that order); C7 the uniforms hold average/50 and
      timestamp/1000; C8 the invariant of every reachable state (rule
      induction on [step]); C9 a refresh never throws; C10 rotation
      accumulates one binary64 turn per frame whatever the timestamps,
      within 2^-33 rad of 0.05 rad per frame for three minutes; C11
      silent bins keep the audio uniform at 0; C15 a successful decode
      loops at volume 0.5; C19 nothing plays while the load request is
      queued; C20 after a failed decode nothing ever plays; C21 [uTime]
      and [uAudioFrequency] always hold numbers (type); C22 the scene
      graph never changes after [startApp]; C26 [uAudioFrequency] stays
      in [0, 5.1] and a loud frame writes 5.1; C27 when the renderer
      draws colours in [0, 1], every displayed frame and every history
      has all its channels in [0, 1].
    - end to end: C28 from [startApp], any sequence of refreshes
      ([run_frames_trace]) shows exactly the outputs of the motion-blur
      contract on the scenes the spec describes ([spec_scenes]: uniforms
      timestamp/1000 and mean of the 16 bins/50, one turn per frame): the
      application refines its specification.
    - binary64 rotation: C23 over the first 10800 ticks (three minutes at
      60 frames per second) every angle stays within 2^-33 rad of the
      exact one.
    - audio and uniforms: C12 the analyser has 16 bins and averages them;
      C13 a missing slot makes [update] throw; C14 the constructor's
      binding replaces an existing slot.

    Numbers.  The rotation is binary64, as JavaScript computes it
    ([Rotation64]): the angles are not the exact [0.05 n] of the spec
    (after 10 ticks x is the double just below 0.5), and C10 and C23
    bound the drift.  The uniforms' numbers (timestamp/1000, average/50)
    and GPU colours are the rationals [Q] (equality [Qeq], a setoid).
    The composer's own buffers are read back exactly in [Compositor] and
    the contract (the spec's exact float storage, C1-C3, C5, C28);
    [HalfFloat] adds their binary16 rounding (three.js r153 and later;
    round to nearest even, the IEEE default, where OpenGL leaves the
    rounding of half-float writes to the implementation) and proves what
    the 8-bit history does through them (C16, C24, C25, C29-C31).  The
    save target's width matters and is modelled exactly: levels are [Z]
    in [0, 255], written by round-to-nearest.
    There is no fuel: every operation is structurally recursive, and the
    theorems quantify over any number of ticks.  The bound 256 of C18 and
    C25 is the number of 8-bit levels: a monotone sequence of levels that
    moved at each of 256 steps would leave [0, 255].  The drift bound of
    C10 and C23 has a horizon because its proof runs a checked
    computation tick by tick, once ([turns_drift]: [drift_check], proved
    sound by [drift_check_sound]); three minutes keep the kernel's
    re-check within seconds.  No general error bound
    for binary64 sums is proved: the Standard Library has no theory of
    float rounding to derive one from.

    Not modelled: the WebAudio signal path (the bins are an input of each
    refresh), the mesh's vertex and fragment shaders (not in the sources:
    the abstract [draw]), the lights' effect on shading, the camera and
    GUI handles (never used by app.js), resizing (render/init.js),
    [console.log] beyond the logged values, warnings of [THREE.Audio], the
    bundling of the audio asset (only its path is used).  A thrown
    [TypeError] is a value [inl e] that drops the state: the mutations a
    JS callback makes before it throws (the analyser's bins refreshed by
    [getFrequency] before [update] throws at line 52) are not kept, which
    no reachable state observes since no refresh throws (C9).  The host
    (render/init.js: EffectComposer, RenderPass, useTick) is not under
    src/ and is modelled from the spec and three.js: [Composer],
    [composer_render], [frame], [step], [host_scene]. *)

From Stdlib Require Import QArith Qround Lqa Psatz List Lia ZArith.
From Stdlib Require Import Setoid Morphisms.
Import ListNotations.

Declare Scope viz_scope.
Delimit Scope viz_scope with viz.
Open Scope Q_scope.

(** ** GLSL arithmetic on rationals *)

(** GLSL's [mix(x, y, a) = x * (1 - a) + y * a]. *)
Definition mix (x y a : Q) : Q := x * (1 - a) + y * a.

(** [r ^^ n], a power with a natural exponent. *)
Fixpoint qpow (r : Q) (n : nat) : Q :=
  match n with
  | O => 1
  | S n => r * qpow r n
  end.
Infix "^^" := qpow (at level 30, right associativity) : viz_scope.
Open Scope viz_scope.

(** [wsum r [d0; d1; d2; ...] = d0 + r d1 + r^2 d2 + ...]: the weight of
    an element is [r] to the power of its distance from the head. *)
Fixpoint wsum (r : Q) (ds : list Q) : Q :=
  match ds with
  | [] => 0
  | d :: ds => d + r * wsum r ds
  end.

(** The unit interval, as a proposition and as a test. *)
Definition in_unit (x : Q) : Prop := 0 <= x <= 1.
Definition in_unitb (x : Q) : bool := Qle_bool 0 x && Qle_bool x 1.

(** ** Tactics and hints *)

Create HintDb viz.
Create Rewrite HintDb viz_rw.

(** Close an equation or inequation of rationals. *)
Ltac qsolve :=
  unfold mix, in_unit in *;
  first [ ring | field | lra | nra ].

(** ** Lemmas on [mix] *)

#[export] Instance mix_Proper : Proper (Qeq ==> Qeq ==> Qeq ==> Qeq) mix.
Proof. intros x x' Hx y y' Hy a a' Ha. unfold mix. rewrite Hx, Hy, Ha. reflexivity. Qed.

Lemma mix_same x a : mix x x a == x.
Proof. qsolve. Qed.

Lemma mix_0 x y : mix x y 0 == x.
Proof. qsolve. Qed.

Lemma mix_1 x y : mix x y 1 == y.
Proof. qsolve. Qed.

(** The distance to the first argument is scaled by the ratio. *)
Lemma mix_sub x y a : mix x y a - x == a * (y - x).
Proof. qsolve. Qed.

Lemma mix_lower lo x y a : 0 <= a <= 1 -> lo <= x -> lo <= y -> lo <= mix x y a.
Proof. intros. qsolve. Qed.

Lemma mix_upper hi x y a : 0 <= a <= 1 -> x <= hi -> y <= hi -> mix x y a <= hi.
Proof. intros. qsolve. Qed.

Lemma mix_in_unit x y a :
  in_unit a -> in_unit x -> in_unit y -> in_unit (mix x y a).
Proof.
  unfold in_unit. intros Ha [] []. split.
  - apply mix_lower; auto.
  - apply mix_upper; auto.
Qed.
#[export] Hint Resolve mix_in_unit : viz.

#[export] Instance in_unit_Proper : Proper (Qeq ==> iff) in_unit.
Proof. intros x y H. unfold in_unit. rewrite H. reflexivity. Qed.

Lemma in_unitb_spec x : in_unitb x = true <-> in_unit x.
Proof.
  unfold in_unitb, in_unit. rewrite andb_true_iff, !Qle_bool_iff. tauto.
Qed.

Lemma in_unit_0 : in_unit 0.
Proof. qsolve. Qed.

Lemma in_unit_1 : in_unit 1.
Proof. qsolve. Qed.
#[export] Hint Resolve in_unit_0 in_unit_1 : viz.

(** ** Lemmas on powers and weighted sums *)

#[export] Instance qpow_Proper : Proper (Qeq ==> eq ==> Qeq) qpow.
Proof.
  intros r r' Hr n ? <-. induction n as [|n IH]; simpl; [reflexivity|].
  now apply Qmult_comp.
Qed.

Lemma qpow_in_unit r n : in_unit r -> in_unit (r ^^ n).
Proof.
  intros Hr. induction n as [|n IH]; simpl; [qsolve|].
  unfold in_unit in *. split; nra.
Qed.
#[export] Hint Resolve qpow_in_unit : viz.

Lemma qpow_add r m n : r ^^ (m + n) == r ^^ m * r ^^ n.
Proof.
  induction m as [|m IH]; simpl; [ring|]. rewrite IH. ring.
Qed.

Lemma qpow_antitone r m n : in_unit r -> (m <= n)%nat -> r ^^ n <= r ^^ m.
Proof.
  intros Hr Hmn. replace n with (m + (n - m))%nat by lia. rewrite qpow_add.
  pose proof (qpow_in_unit r m Hr). pose proof (qpow_in_unit r (n - m) Hr).
  unfold in_unit in *. nra.
Qed.

(** Appending the oldest element adds it with the largest weight. *)
Lemma wsum_snoc r ds d : wsum r (ds ++ [d]) == wsum r ds + r ^^ length ds * d.
Proof.
  induction ds as [|d' ds IH]; simpl; [ring|]. rewrite IH. ring.
Qed.

#[export] Instance wsum_Proper : Proper (Qeq ==> eq ==> Qeq) wsum.
Proof.
  intros r r' Hr ds ? <-. induction ds as [|d ds IH]; simpl; [reflexivity|].
  now apply Qplus_comp; [|apply Qmult_comp].
Qed.
