(* ===== verification/Frame.v ===== *)
(** * Colours, textures, the two fragment programs and 8-bit storage

    What the GPU side of the compositor computes, as fragment shaders see
    it: a colour is a GLSL [vec4]; a texture is a function from texel
    coordinates to colours; [BlendShader] and [CopyShader] (the shaders
    of three.js that app.js imports at lines 13-14) are pointwise
    functions of their input textures.  A render target stores what a
    pass writes: in its own format, which for [UnsignedByteType] (the
    default of [WebGLRenderTarget], used by the save target of line 132)
    clamps every channel to [0, 1] and rounds it to one of 256 levels. *)

From stdpp Require Import base countable.
From Stdlib Require Import QArith Qround Lqa Psatz ZArith.
From S2P Require Import Prelude.

Open Scope Q_scope.

(** ** Colours *)

(** A GLSL [vec4] read as an RGBA colour. *)
Record vec4 := Vec4 { vr : Q; vg : Q; vb : Q; va : Q }.

Definition vmap (f : Q -> Q) (v : vec4) : vec4 :=
  Vec4 (f (vr v)) (f (vg v)) (f (vb v)) (f (va v)).

Definition vmap2 (f : Q -> Q -> Q) (u v : vec4) : vec4 :=
  Vec4 (f (vr u) (vr v)) (f (vg u) (vg v)) (f (vb u) (vb v)) (f (va u) (va v)).

(** GLSL [mix(vec4, vec4, float)] and [float * vec4]. *)
Definition vec_mix (x y : vec4) (a : Q) : vec4 := vmap2 (fun p q => mix p q a) x y.
Definition vscale (s : Q) (v : vec4) : vec4 := vmap (Qmult s) v.

(** Transparent black, the content WebGL gives a freshly allocated texture. *)
Definition vzero : vec4 := Vec4 0 0 0 0.

#[export] Instance vec4_equiv : Equiv vec4 := fun u v =>
  vr u == vr v /\ vg u == vg v /\ vb u == vb v /\ va u == va v.

Definition vec4_in_unit (v : vec4) : Prop :=
  in_unit (vr v) /\ in_unit (vg v) /\ in_unit (vb v) /\ in_unit (va v).

(** ** Textures *)

(** Integer texel coordinates [(x, y)]. *)
Definition texel := (nat * nat)%type.
Definition Texture := texel -> vec4.

#[export] Instance texture_equiv : Equiv Texture := fun s t => forall p, s p ≡ t p.

Definition tex_in_unit (t : Texture) : Prop := forall p, vec4_in_unit (t p).

(** A texture of one colour, as produced by clearing or by a constant scene. *)
Definition tconst (c : vec4) : Texture := fun _ => c.

(** [BlendShader]: [gl_FragColor = opacity * mix(texel1, texel2, mixRatio)]. *)
Definition blend_frag (opacity mixRatio : Q) (t1 t2 : Texture) : Texture :=
  fun uv => vscale opacity (vec_mix (t1 uv) (t2 uv) mixRatio).

(** [CopyShader]: [gl_FragColor = opacity * texel]. *)
Definition copy_frag (opacity : Q) (t : Texture) : Texture :=
  fun uv => vscale opacity (t uv).

(** ** Render targets and their storage formats *)

Inductive TextureDataType := UnsignedByteType | HalfFloatType.

(** GL's conversion of a colour channel to an unsigned normalised 8-bit
    value: clamp to [0, 1], scale by 255, round to nearest. *)
Definition unorm8_level (x : Q) : Z :=
  Z.max 0 (Z.min 255 (Qfloor (x * 255 + (1 # 2)))).

Definition unorm8 (x : Q) : Q := inject_Z (unorm8_level x) / 255.

(** What a render target of the given type keeps of a written texture.
    An 8-bit target rounds each channel to the nearest of 256 levels.  A
    [HalfFloatType] target is read back exactly here: this is the exact
    float storage of the spec's blend contract, which [Compositor] and
    the theorems on the exact history use.  The binary16 rounding of such
    a target is [HalfFloat.half_store], and [HalfFloat] bounds and
    characterises what it changes in the 8-bit history. *)
Definition store_conv (ty : TextureDataType) (t : Texture) : Texture :=
  match ty with
  | UnsignedByteType => fun uv => vmap unorm8 (t uv)
  | HalfFloatType => t
  end.

(** A [WebGLRenderTarget]: size, data type and current content. *)
Record RenderTarget := {
  rt_width : nat;
  rt_height : nat;
  rt_type : TextureDataType;
  rt_texture : Texture
}.

(** The render targets of the application: the composer's two ping-pong
    buffers (allocated by the host's [EffectComposer]) and the target of
    the save pass (app.js line 132). *)
Inductive RTId := ComposerTarget1 | ComposerTarget2 | SaveTarget.

#[export] Instance RTId_eq_dec : EqDecision RTId.
Proof. solve_decision. Defined.

#[export] Instance RTId_countable : Countable RTId.
Proof.
  refine (inj_countable'
    (fun t => match t with ComposerTarget1 => 0%nat | ComposerTarget2 => 1%nat | SaveTarget => 2%nat end)
    (fun n => match n with 0%nat => ComposerTarget1 | 1%nat => ComposerTarget2 | _ => SaveTarget end) _).
  by intros [].
Defined.

(** Writing a texture into a target converts it to the target's format. *)
Definition rt_write (rt : RenderTarget) (t : Texture) : RenderTarget :=
  {| rt_width := rt_width rt; rt_height := rt_height rt; rt_type := rt_type rt;
     rt_texture := store_conv (rt_type rt) t |}.

(** ** The lifting tactic and the setoid structure *)

(** Reduce an equation or bound on colours to its four channels. *)
Ltac vsolve :=
  repeat match goal with
         | v : vec4 |- _ => destruct v
         end;
  unfold base.equiv, vec4_equiv, vec4_in_unit, vec_mix, vscale, vmap, vmap2, vzero in *;
  simpl in *;
  repeat match goal with
         | H : _ /\ _ |- _ => destruct H
         end;
  repeat split; try qsolve; auto with viz.

#[export] Instance vec4_equivalence : Equivalence (≡@{vec4}).
Proof.
  split.
  - intros v. vsolve.
  - intros u v H. vsolve.
  - intros u v w H1 H2. vsolve.
Qed.

#[export] Instance texture_equivalence : Equivalence (≡@{Texture}).
Proof.
  split.
  - intros t p. reflexivity.
  - intros s t H p. symmetry. apply H.
  - intros s t u H1 H2 p. etransitivity; [apply H1 | apply H2].
Qed.

#[export] Instance vec_mix_Proper : Proper ((≡) ==> (≡) ==> Qeq ==> (≡)) vec_mix.
Proof.
  intros [] [] Hx [] [] Hy a a' Ha. unfold base.equiv, vec4_equiv in *. simpl in *.
  destruct Hx as (?&?&?&?), Hy as (?&?&?&?).
  repeat split; apply mix_Proper; auto.
Qed.

#[export] Instance vscale_Proper : Proper (Qeq ==> (≡) ==> (≡)) vscale.
Proof.
  intros s s' Hs [] [] Hv. unfold base.equiv, vec4_equiv in *. simpl in *.
  destruct Hv as (?&?&?&?). repeat split; apply Qmult_comp; auto.
Qed.

#[export] Instance blend_frag_Proper :
  Proper (Qeq ==> Qeq ==> (≡) ==> (≡) ==> (≡)) blend_frag.
Proof.
  intros o o' Ho a a' Ha s s' Hs t t' Ht p. unfold blend_frag.
  apply vscale_Proper; [done|]. apply vec_mix_Proper; auto.
Qed.

#[export] Instance copy_frag_Proper : Proper (Qeq ==> (≡) ==> (≡)) copy_frag.
Proof. intros o o' Ho s s' Hs p. unfold copy_frag. apply vscale_Proper; auto. Qed.

(** ** Lemmas on the fragment programs *)

Lemma vscale_1 v : vscale 1 v ≡ v.
Proof. vsolve. Qed.

Lemma copy_frag_1 t : copy_frag 1 t ≡ t.
Proof. intros p. apply vscale_1. Qed.

Lemma vec_mix_in_unit x y a :
  in_unit a -> vec4_in_unit x -> vec4_in_unit y -> vec4_in_unit (vec_mix x y a).
Proof. intros. vsolve. Qed.

Lemma blend_frag_in_unit a s t :
  in_unit a -> tex_in_unit s -> tex_in_unit t -> tex_in_unit (blend_frag 1 a s t).
Proof.
  intros Ha Hs Ht p. unfold blend_frag.
  generalize (Hs p) (Ht p). destruct (s p), (t p). intros. vsolve.
Qed.

(** ** Channels *)

Inductive channel := ChR | ChG | ChB | ChA.

Definition vget (ch : channel) (v : vec4) : Q :=
  match ch with ChR => vr v | ChG => vg v | ChB => vb v | ChA => va v end.

(** Two colours are equivalent exactly when every channel is. *)
Lemma vec4_equiv_channels u v : u ≡ v <-> forall ch, vget ch u == vget ch v.
Proof.
  split.
  - intros (?&?&?&?) []; simpl; auto.
  - intros H. repeat split; [apply (H ChR) | apply (H ChG) | apply (H ChB) | apply (H ChA)].
Qed.

#[export] Instance vget_Proper ch : Proper ((≡) ==> Qeq) (vget ch).
Proof. intros u v H. by apply vec4_equiv_channels. Qed.

Lemma vget_vec_mix ch x y a : vget ch (vec_mix x y a) = mix (vget ch x) (vget ch y) a.
Proof. by destruct ch. Qed.

Lemma vget_vscale ch s v : vget ch (vscale s v) = s * vget ch v.
Proof. by destruct ch. Qed.

Lemma vget_vzero ch : vget ch vzero = 0.
Proof. by destruct ch. Qed.

Lemma vec4_in_unit_channels v : vec4_in_unit v <-> forall ch, in_unit (vget ch v).
Proof.
  split.
  - intros (?&?&?&?) []; simpl; auto.
  - intros H. refine (conj (H ChR) (conj (H ChG) (conj (H ChB) (H ChA)))).
Qed.

(** One channel of a blended texel. *)
Lemma vget_blend_frag ch o a s t p :
  vget ch (blend_frag o a s t p) = o * mix (vget ch (s p)) (vget ch (t p)) a.
Proof. unfold blend_frag. by rewrite vget_vscale, vget_vec_mix. Qed.

#[export] Hint Rewrite vget_vec_mix vget_vscale vget_vzero vget_blend_frag : viz_rw.

(** ** The 8-bit format *)

Lemma unorm8_level_range x : (0 <= unorm8_level x <= 255)%Z.
Proof. unfold unorm8_level. lia. Qed.

Lemma unorm8_in_unit x : in_unit (unorm8 x).
Proof.
  unfold unorm8, in_unit. pose proof (unorm8_level_range x) as [H0 H1].
  rewrite Zle_Qle in H0, H1.
  change (inject_Z 0) with 0 in H0. change (inject_Z 255) with 255 in H1.
  split; [apply Qle_shift_div_l | apply Qle_shift_div_r]; lra.
Qed.
#[export] Hint Resolve unorm8_in_unit : viz.

Lemma store_conv_in_unit ty t : tex_in_unit t -> tex_in_unit (store_conv ty t).
Proof.
  destruct ty; simpl; [|done]. intros _ p. apply vec4_in_unit_channels.
  intros []; simpl; auto with viz.
Qed.

#[export] Instance vec4_in_unit_Proper : Proper ((≡) ==> iff) vec4_in_unit.
Proof.
  intros v w H. rewrite !vec4_in_unit_channels. pose proof (proj1 (vec4_equiv_channels v w) H) as Hc.
  split; intros Hv ch; [rewrite <- (Hc ch) | rewrite (Hc ch)]; apply Hv.
Qed.

#[export] Instance tex_in_unit_Proper : Proper ((≡) ==> iff) tex_in_unit.
Proof. intros s t H. split; intros Hs p; [rewrite <- (H p) | rewrite (H p)]; apply Hs. Qed.
