(* ===== verification/MotionBlur.v ===== *)
(** * The motion-blur contract and the accumulated history

    What the compositor of app.js promises the render loop, independently
    of the passes that implement it: each tick the displayed frame is
    [mix(C, A, ratio)] of the freshly rendered scene [C] and the history
    [A], and the history becomes that displayed frame as the history's
    render target stores it (exactly for a float target, rounded to 8 bits
    for [UnsignedByteType]).  The contract is the class [BlurContract];
    [Compositor] instantiates it with the EffectComposer model.

    The theorems of this file are about the contract: the closed form of
    the history after any sequence of scenes (the weight of the scene
    rendered [k] ticks ago is [(1 - ratio) ratio^k]), geometric decay
    towards a constant scene, the refinement of the contract by any lawful
    compositor, and the first tick against the zero-initialised save
    target. *)

From stdpp Require Import base list.
From Stdlib Require Import QArith Qround Lqa Psatz List.
From S2P Require Import Prelude Frame.
Import ListNotations.

Open Scope Q_scope.

(** ** The contract *)

Section Contract.
Context (ratio : Q) (ty : TextureDataType).

(** The displayed frame of a tick (blend pass, then copy to screen). *)
Definition blur_output (hist scene : Texture) : Texture :=
  blend_frag 1 ratio scene hist.

(** The history after a tick (save pass into a target of type [ty]). *)
Definition blur_step (hist scene : Texture) : Texture :=
  store_conv ty (blur_output hist scene).

Fixpoint run_history (hist : Texture) (scenes : list Texture) : Texture :=
  match scenes with
  | [] => hist
  | c :: cs => run_history (blur_step hist c) cs
  end.

Fixpoint run_outputs (hist : Texture) (scenes : list Texture) : list Texture :=
  match scenes with
  | [] => []
  | c :: cs => blur_output hist c :: run_outputs (blur_step hist c) cs
  end.
End Contract.

(** A compositor: a state with a history texture, and a per-tick
    [present] that may fail (a missing render target). *)
Class BlurCompositor (S : Type) := {
  bc_history : S -> Texture;
  bc_present : S -> Texture -> option (Texture * S)
}.

(** Its laws: from a well-formed state, [present] succeeds, shows the
    blend of the scene with the history, and stores it as the history. *)
Class BlurContract (S : Type) `{!BlurCompositor S}
      (ratio : Q) (ty : TextureDataType) (ok : S -> Prop) := {
  bc_present_spec : forall s c, ok s ->
    exists o s', bc_present s c = Some (o, s') /\
      o ≡ blur_output ratio (bc_history s) c /\
      bc_history s' ≡ blur_step ratio ty (bc_history s) c /\ ok s'
}.

(** Running a compositor over the scenes of several ticks. *)
Fixpoint present_all {S} `{!BlurCompositor S} (s : S) (scenes : list Texture)
  : option (list Texture * S) :=
  match scenes with
  | [] => Some ([], s)
  | c :: cs =>
      match bc_present s c with
      | None => None
      | Some (o, s') =>
          match present_all s' cs with
          | None => None
          | Some (os, s'') => Some (o :: os, s'')
          end
      end
  end.

(** ** Scalar form of the history *)

(** One channel of one texel of the history, for exact storage. *)
Fixpoint hist_q (r a : Q) (cs : list Q) : Q :=
  match cs with
  | [] => a
  | c :: cs => hist_q r (mix c a r) cs
  end.

#[export] Instance hist_q_Proper : Proper (Qeq ==> Qeq ==> eq ==> Qeq) hist_q.
Proof.
  intros r r' Hr a a' Ha cs ? <-. revert a a' Ha.
  induction cs as [|c cs IH]; intros a a' Ha; simpl; [done|].
  apply IH. by rewrite Ha, Hr.
Qed.

Lemma hist_q_closed r a cs :
  hist_q r a cs == r ^^ length cs * a + (1 - r) * wsum r (rev cs).
Proof.
  revert a. induction cs as [|c cs IH]; intros a; simpl; [ring|].
  rewrite IH, wsum_snoc, length_rev. unfold mix. ring.
Qed.

(** ** Setoid lemmas on the contract *)

#[export] Instance store_conv_Proper ty : Proper ((≡) ==> (≡)) (store_conv ty).
Proof.
  intros s t H p. destruct ty; simpl; [|apply H].
  specialize (H p). apply vec4_equiv_channels. intros ch.
  apply vec4_equiv_channels with (ch := ch) in H.
  destruct ch; simpl; unfold unorm8, unorm8_level; by rewrite H.
Qed.

#[export] Instance blur_output_Proper r : Proper ((≡) ==> (≡) ==> (≡)) (blur_output r).
Proof. intros a a' Ha c c' Hc. unfold blur_output. by rewrite Ha, Hc. Qed.

#[export] Instance blur_step_Proper r ty : Proper ((≡) ==> (≡) ==> (≡)) (blur_step r ty).
Proof. intros a a' Ha c c' Hc. unfold blur_step. by rewrite Ha, Hc. Qed.

#[export] Instance run_history_Proper r ty : Proper ((≡) ==> eq ==> (≡)) (run_history r ty).
Proof.
  intros a a' Ha cs ? <-. revert a a' Ha.
  induction cs as [|c cs IH]; intros a a' Ha; simpl; [done|].
  apply IH. by rewrite Ha.
Qed.

(** One channel of the exact history is the scalar history of that
    channel. *)
Lemma run_history_channel r A scenes p ch :
  vget ch (run_history r HalfFloatType A scenes p)
  == hist_q r (vget ch (A p)) (map (fun C => vget ch (C p)) scenes).
Proof.
  revert A. induction scenes as [|C cs IH]; intros A; simpl; [done|].
  rewrite IH. apply hist_q_Proper; [done| |done].
  unfold blur_output. rewrite vget_blend_frag. ring.
Qed.

(** ** Scalar lemmas *)

(** Towards a constant input the distance shrinks by the ratio each tick. *)
Lemma hist_q_repeat r a c n : hist_q r a (repeat c n) - c == r ^^ n * (a - c).
Proof.
  revert a. induction n as [|n IH]; intros a; simpl; [ring|].
  rewrite IH. unfold mix. ring.
Qed.

(** ** Theorems about the contract *)

(** C2: closed form of the exact history.  After the scenes [C_1 ... C_n]
    (oldest first), every channel of every texel of the history is
    [ratio^n A + (1 - ratio) (C_n + ratio C_(n-1) + ratio^2 C_(n-2) + ...)]:
    the scene rendered [k] ticks ago weighs [(1 - ratio) ratio^k], the
    initial history [ratio^n]. *)
Theorem history_closed_form r A scenes p ch :
  vget ch (run_history r HalfFloatType A scenes p)
  == r ^^ length scenes * vget ch (A p)
     + (1 - r) * wsum r (rev (map (fun C => vget ch (C p)) scenes)).
Proof.
  rewrite run_history_channel, hist_q_closed, length_map. reflexivity.
Qed.

(** C3: geometric decay.  When the same scene [C] is rendered for [n]
    ticks, the gap between the exact history and [C] is the initial gap
    times [ratio^n]: each tick closes a fraction [1 - ratio] of it. *)
Theorem history_decay r A C n p ch :
  vget ch (run_history r HalfFloatType A (repeat C n) p) - vget ch (C p)
  == r ^^ n * (vget ch (A p) - vget ch (C p)).
Proof.
  rewrite run_history_channel, map_repeat. apply hist_q_repeat.
Qed.

Lemma blur_output_in_unit r A C :
  in_unit r -> tex_in_unit A -> tex_in_unit C -> tex_in_unit (blur_output r A C).
Proof. intros. by apply blend_frag_in_unit. Qed.
#[export] Hint Resolve blur_output_in_unit store_conv_in_unit : viz.

Lemma tconst_in_unit c : vec4_in_unit c -> tex_in_unit (tconst c).
Proof. by intros H p. Qed.

Lemma vec4_in_unit_Vec4 x y z w :
  in_unit x -> in_unit y -> in_unit z -> in_unit w -> vec4_in_unit (Vec4 x y z w).
Proof. intros. unfold vec4_in_unit; simpl; tauto. Qed.
#[export] Hint Resolve tconst_in_unit vec4_in_unit_Vec4 : viz.

(** The first tick against a history of transparent black shows the scene
    scaled by [1 - ratio]. *)
Lemma blur_output_zero r C : blur_output r (tconst vzero) C ≡ (fun p => vscale (1 - r) (C p)).
Proof.
  intros p. apply vec4_equiv_channels. intros ch. unfold blur_output.
  rewrite vget_blend_frag, vget_vscale. simpl. rewrite vget_vzero. qsolve.
Qed.

(** ** Refinement: any lawful compositor implements the contract over a
    sequence of ticks *)

Section Refinement.
Context {S : Type} `{!BlurCompositor S} (ratio : Q) (ty : TextureDataType)
        (ok : S -> Prop) `{!BlurContract S ratio ty ok}.

(** Run over the scenes of any number of ticks from a well-formed
    state whose history is [A], the compositor succeeds, displays the
    outputs of the contract and ends with the contract's history. *)
Theorem present_all_refines s A scenes :
  ok s -> bc_history s ≡ A ->
  exists outs s', present_all s scenes = Some (outs, s') /\
    Forall2 (≡) outs (run_outputs ratio ty A scenes) /\
    bc_history s' ≡ run_history ratio ty A scenes /\ ok s'.
Proof.
  revert s A. induction scenes as [|c cs IH]; intros s A Hok HA; simpl.
  - by exists [], s.
  - destruct (bc_present_spec s c Hok) as (o & s1 & -> & Ho & Hh & Hok1).
    rewrite HA in Ho, Hh.
    destruct (IH s1 _ Hok1 Hh) as (os & s2 & -> & Hos & Hh2 & Hok2).
    exists (o :: os), s2. split; [done|]. split; [by constructor|]. done.
Qed.
End Refinement.
