(* ===== verification/Uniforms.v ===== *)
(** * The uniforms object of a material or a shader pass

    In app.js the [uniforms] of the mesh's [ShaderMaterial] and of the
    shader passes are plain JS objects from names to boxes [{value}].
    Two writes occur: the property assignment [u[name] = {value: v}]
    (lines 26 and 92), which creates the slot or replaces the box, and the
    boxed write [u[name].value = v] (lines 52, 136, 137, 166), which
    throws a [TypeError] when [u[name]] is undefined.  A shader program
    reads a uniform by name; a name with no slot reads as GLSL's default
    0.  The object is a [gmap string Uniform]; the boxed write returns
    the error in a sum. *)

From stdpp Require Import base gmap strings.
From Stdlib Require Import QArith.
From S2P Require Import Prelude Frame.

Open Scope Q_scope.

(** A uniform's value: a number, or a texture (null or the texture of a
    render target). *)
Inductive UValue := UFloat (q : Q) | UTex (t : option RTId).

(** The box [{value}]. *)
Record Uniform := { value : UValue }.

Abbreviation Uniforms := (gmap string Uniform).

(** The JS exceptions the program can raise. *)
Inductive JSError := TypeError (msg : string).

(** [u[name] = {value: v}]. *)
Definition assign_uniform (name : string) (v : UValue) (u : Uniforms) : Uniforms :=
  <[name := {| value := v |}]> u.

(** [u[name].value = v]. *)
Definition set_uniform_value (name : string) (v : UValue) (u : Uniforms)
  : JSError + Uniforms :=
  match u !! name with
  | None => inl (TypeError "Cannot set properties of undefined (setting 'value')")
  | Some _ => inr (<[name := {| value := v |}]> u)
  end.

(** What a shader program reads for a float uniform: its value, or 0 when
    the slot is missing or holds no number. *)
Definition read_float (u : Uniforms) (name : string) : Q :=
  match u !! name with
  | Some {| value := UFloat q |} => q
  | _ => 0
  end.

(** What a shader program reads for a texture uniform. *)
Definition read_tex (u : Uniforms) (name : string) : option RTId :=
  match u !! name with
  | Some {| value := UTex t |} => t
  | _ => None
  end.

(** Whether a slot exists, as a test. *)
Definition has_slot (u : Uniforms) (name : string) : bool :=
  bool_decide (is_Some (u !! name)).

(** ** Lemmas *)

Lemma has_slot_spec u name : has_slot u name = true <-> is_Some (u !! name).
Proof. unfold has_slot. by rewrite bool_decide_eq_true. Qed.

Lemma assign_uniform_lookup name v u :
  assign_uniform name v u !! name = Some {| value := v |}.
Proof. apply lookup_insert_eq. Qed.

Lemma assign_uniform_lookup_ne name name' v u :
  name <> name' -> assign_uniform name v u !! name' = u !! name'.
Proof. intros. by apply lookup_insert_ne. Qed.

Lemma set_uniform_value_ok name v u :
  is_Some (u !! name) ->
  set_uniform_value name v u = inr (assign_uniform name v u).
Proof. intros [b Hb]. unfold set_uniform_value. by rewrite Hb. Qed.

Lemma read_float_assign name q u : read_float (assign_uniform name (UFloat q) u) name = q.
Proof. unfold read_float. by rewrite assign_uniform_lookup. Qed.

Lemma read_float_assign_ne name name' v u :
  name <> name' -> read_float (assign_uniform name v u) name' = read_float u name'.
Proof. intros. unfold read_float. by rewrite assign_uniform_lookup_ne. Qed.

Lemma read_tex_assign name t u : read_tex (assign_uniform name (UTex t) u) name = t.
Proof. unfold read_tex. by rewrite assign_uniform_lookup. Qed.

Lemma read_tex_assign_ne name name' v u :
  name <> name' -> read_tex (assign_uniform name v u) name' = read_tex u name'.
Proof. intros. unfold read_tex. by rewrite assign_uniform_lookup_ne. Qed.

Lemma assign_uniform_slot name name' v u :
  is_Some (u !! name') -> is_Some (assign_uniform name v u !! name') .
Proof.
  intros H. destruct (decide (name = name')) as [<-|Hne].
  - rewrite assign_uniform_lookup. by eexists.
  - by rewrite assign_uniform_lookup_ne.
Qed.

#[export] Hint Rewrite read_float_assign read_tex_assign : viz_rw.
#[export] Hint Resolve assign_uniform_slot : viz.
