(* ===== verification/Compositor.v ===== *)
(** * The post-processing chain of app.js and its EffectComposer

    The host's [EffectComposer] (render/init.js, modelled from the spec)
    owns two ping-pong render targets [readBuffer]/[writeBuffer] and a
    list of passes, the first of which renders the scene.  app.js appends
    three passes (lines 131-153):
    - [blendPass = new ShaderPass(BlendShader, 'tDiffuse1')] whose
      [tDiffuse2] uniform is set to [savePass.renderTarget.texture]
      (line 136) and whose [mixRatio] is [MOTION_BLUR_AMOUNT = 0.725]
      (lines 66, 137);
    - [savePass = new SavePass(new WebGLRenderTarget(width, height, ...))]
      (line 132), an [UnsignedByteType] target;
    - [outputPass = new ShaderPass(CopyShader)] (lines 140-141).

    Render targets live in a store [gmap RTId RenderTarget]; a texture
    uniform holds an [RTId], a reference into the store, so the blend
    pass reads exactly the target the save pass writes (the aliasing of
    line 136).  [composer_render] is [EffectComposer.render]: every
    enabled pass is told whether it is the last one, renders, and the
    two buffers are swapped after the passes with [needsSwap].  A pass
    that names a target missing from the store fails ([None]).

    The refinement theorem: from a well-formed composer, one render
    displays [mix(C, A, 0.725)] and stores it, converted to 8 bits, as
    the next [A]; this is the [BlurContract] of [MotionBlur]. *)

From stdpp Require Import base gmap strings list.
From Stdlib Require Import QArith Lqa.
From S2P Require Import Prelude Frame Uniforms MotionBlur.

Open Scope Q_scope.

(** ** Shader programs and passes *)

Inductive ShaderProgram := BlendShader | CopyShader.

(** [UniformsUtils.clone(shader.uniforms)] of each program. *)
Definition shader_uniforms (sh : ShaderProgram) : Uniforms :=
  match sh with
  | BlendShader =>
      assign_uniform "tDiffuse1" (UTex None)
        (assign_uniform "tDiffuse2" (UTex None)
          (assign_uniform "mixRatio" (UFloat (1 # 2))
            (assign_uniform "opacity" (UFloat 1) ∅)))
  | CopyShader =>
      assign_uniform "tDiffuse" (UTex None) (assign_uniform "opacity" (UFloat 1) ∅)
  end.

Abbreviation Store := (gmap RTId RenderTarget).

(** Sampling a texture uniform: a null texture samples opaque black. *)
Definition sample (store : Store) (t : option RTId) : option Texture :=
  match t with
  | None => Some (tconst (Vec4 0 0 0 1))
  | Some id => rt_texture <$> store !! id
  end.

(** A full-screen quad drawn with a program and its uniforms. *)
Definition run_program (sh : ShaderProgram) (u : Uniforms) (store : Store) : option Texture :=
  match sh with
  | BlendShader =>
      t1 ← sample store (read_tex u "tDiffuse1");
      t2 ← sample store (read_tex u "tDiffuse2");
      Some (blend_frag (read_float u "opacity") (read_float u "mixRatio") t1 t2)
  | CopyShader =>
      t ← sample store (read_tex u "tDiffuse");
      Some (copy_frag (read_float u "opacity") t)
  end.

Inductive PassKind :=
  | RenderPassK                                      (* RenderPass(scene, camera) *)
  | ShaderPassK (sh : ShaderProgram) (textureID : string)
  | SavePassK (target : RTId).

Record Pass := {
  kind : PassKind;
  uniforms : Uniforms;
  needsSwap : bool;
  enabled : bool;
  renderToScreen : bool
}.

Definition set_pass_uniforms (p : Pass) (u : Uniforms) : Pass :=
  {| kind := kind p; uniforms := u; needsSwap := needsSwap p;
     enabled := enabled p; renderToScreen := renderToScreen p |}.

Definition set_renderToScreen (p : Pass) (b : bool) : Pass :=
  {| kind := kind p; uniforms := uniforms p; needsSwap := needsSwap p;
     enabled := enabled p; renderToScreen := b |}.

Record Composer := {
  targets : Store;
  readBuffer : RTId;
  writeBuffer : RTId;
  passes : list Pass;
  screen : option Texture
}.

Definition set_targets (c : Composer) (s : Store) : Composer :=
  {| targets := s; readBuffer := readBuffer c; writeBuffer := writeBuffer c;
     passes := passes c; screen := screen c |}.

Definition set_screen (c : Composer) (t : Texture) : Composer :=
  {| targets := targets c; readBuffer := readBuffer c; writeBuffer := writeBuffer c;
     passes := passes c; screen := Some t |}.

Definition set_passes (c : Composer) (ps : list Pass) : Composer :=
  {| targets := targets c; readBuffer := readBuffer c; writeBuffer := writeBuffer c;
     passes := ps; screen := screen c |}.

(** [EffectComposer.swapBuffers]. *)
Definition swap_buffers (c : Composer) : Composer :=
  {| targets := targets c; readBuffer := writeBuffer c; writeBuffer := readBuffer c;
     passes := passes c; screen := screen c |}.

(** [renderer.setRenderTarget(id)] then a draw: the target keeps the
    drawn texture in its format. *)
Definition write_target (id : RTId) (t : Texture) (store : Store) : option Store :=
  rt ← store !! id; Some (<[id := rt_write rt t]> store).

(** Draw to the screen when [renderToScreen], otherwise into [id]. *)
Definition draw_to (p : Pass) (id : RTId) (t : Texture) (c : Composer) : option Composer :=
  if renderToScreen p then Some (set_screen c t)
  else s ← write_target id t (targets c); Some (set_targets c s).

(** [if (this.uniforms[textureID]) this.uniforms[textureID].value = readBuffer.texture]. *)
Definition bind_input (tid : string) (u : Uniforms) (rb : RTId) : Uniforms :=
  if has_slot u tid then assign_uniform tid (UTex (Some rb)) u else u.

(** [Pass.render(renderer, writeBuffer, readBuffer)] of the three kinds of
    pass; the pass itself may change (its uniforms). *)
Definition pass_render (p : Pass) (scene : Texture) (c : Composer) : option (Pass * Composer) :=
  match kind p with
  | RenderPassK =>
      c' ← draw_to p (readBuffer c) scene c; Some (p, c')
  | ShaderPassK sh tid =>
      let u := bind_input tid (uniforms p) (readBuffer c) in
      out ← run_program sh u (targets c);
      c' ← draw_to p (writeBuffer c) out c;
      Some (set_pass_uniforms p u, c')
  | SavePassK tgt =>
      let u := bind_input "tDiffuse" (uniforms p) (readBuffer c) in
      out ← run_program CopyShader u (targets c);
      s ← write_target tgt out (targets c);
      Some (set_pass_uniforms p u, set_targets c s)
  end.

(** [EffectComposer.isLastEnabledPass(i)]. *)
Definition is_last_enabled (ps : list Pass) (i : nat) : bool :=
  forallb (fun p => negb (enabled p)) (drop (S i) ps).

(** The loop of [EffectComposer.render] from pass index [i]. *)
Fixpoint run_passes (all : list Pass) (i : nat) (rest : list Pass) (scene : Texture)
    (c : Composer) : option (list Pass * Composer) :=
  match rest with
  | [] => Some ([], c)
  | p :: rest' =>
      if enabled p then
        '(p', c1) ← pass_render (set_renderToScreen p (is_last_enabled all i)) scene c;
        let c2 := if needsSwap p' then swap_buffers c1 else c1 in
        '(ps', c3) ← run_passes all (S i) rest' scene c2;
        Some (p' :: ps', c3)
      else
        '(ps', c3) ← run_passes all (S i) rest' scene c;
        Some (p :: ps', c3)
  end.

(** [EffectComposer.render()]. *)
Definition composer_render (scene : Texture) (c : Composer) : option Composer :=
  '(ps, c') ← run_passes (passes c) 0 (passes c) scene c;
  Some (set_passes c' ps).

(** ** Construction: the host composer and the passes of app.js *)

(** [new WebGLRenderTarget(w, h, params)]: WebGL zero-initialises it. *)
Definition new_render_target (w h : nat) (ty : TextureDataType) : RenderTarget :=
  {| rt_width := w; rt_height := h; rt_type := ty; rt_texture := tconst vzero |}.

(** [new ShaderPass(shader, textureID)]. *)
Definition new_shader_pass (sh : ShaderProgram) (tid : string) : Pass :=
  {| kind := ShaderPassK sh tid; uniforms := shader_uniforms sh; needsSwap := true;
     enabled := true; renderToScreen := false |}.

(** [new SavePass(renderTarget)]: copies its input, never swaps. *)
Definition new_save_pass (tgt : RTId) : Pass :=
  {| kind := SavePassK tgt; uniforms := shader_uniforms CopyShader; needsSwap := false;
     enabled := true; renderToScreen := false |}.

(** [new RenderPass(scene, camera)]. *)
Definition new_render_pass : Pass :=
  {| kind := RenderPassK; uniforms := ∅; needsSwap := false; enabled := true;
     renderToScreen := false |}.

(** The host's composer (render/init.js): two half-float buffers of the
    viewport size, [writeBuffer = renderTarget1], [readBuffer =
    renderTarget2], and the scene render pass. *)
Definition host_composer (w h : nat) : Composer :=
  {| targets := <[ComposerTarget1 := new_render_target w h HalfFloatType]>
                  (<[ComposerTarget2 := new_render_target w h HalfFloatType]> ∅);
     readBuffer := ComposerTarget2; writeBuffer := ComposerTarget1;
     passes := [new_render_pass]; screen := None |}.

(** [addPass(pass)] of render/init.js. *)
Definition add_pass (p : Pass) (c : Composer) : Composer :=
  set_passes c (passes c ++ [p]).

Definition MOTION_BLUR_AMOUNT : Q := 29 # 40.

(** Lines 131-132: the save pass and its 8-bit render target. *)
Definition make_save_pass (w h : nat) (c : Composer) : Pass * Composer :=
  (new_save_pass SaveTarget,
   set_targets c (<[SaveTarget := new_render_target w h UnsignedByteType]> (targets c))).

(** Lines 134-137: the blend pass; [tDiffuse2] references the save
    target, [mixRatio] is [MOTION_BLUR_AMOUNT]. *)
Definition make_blend_pass : JSError + Pass :=
  let p := new_shader_pass BlendShader "tDiffuse1" in
  match set_uniform_value "tDiffuse2" (UTex (Some SaveTarget)) (uniforms p) with
  | inl e => inl e
  | inr u1 =>
      match set_uniform_value "mixRatio" (UFloat MOTION_BLUR_AMOUNT) u1 with
      | inl e => inl e
      | inr u2 => inr (set_pass_uniforms p u2)
      end
  end.

(** Lines 139-141: the output pass. *)
Definition make_output_pass : Pass :=
  set_renderToScreen (new_shader_pass CopyShader "tDiffuse") true.

(** Lines 124-153: the post-processing set-up of [startApp]. *)
Definition setup_postprocessing (w h : nat) (c : Composer) : JSError + Composer :=
  let '(savePass, c1) := make_save_pass w h c in
  match make_blend_pass with
  | inl e => inl e
  | inr blendPass =>
      inr (add_pass make_output_pass (add_pass savePass (add_pass blendPass c1)))
  end.

(** ** The well-formed composers *)

Section WellFormed.
Context (ratio : Q) (ty : TextureDataType).

Definition render_pass_ok (p : Pass) : Prop :=
  kind p = RenderPassK /\ needsSwap p = false /\ enabled p = true.

Definition blend_pass_ok (p : Pass) : Prop :=
  kind p = ShaderPassK BlendShader "tDiffuse1" /\ needsSwap p = true /\
  enabled p = true /\ is_Some (uniforms p !! "tDiffuse1") /\
  read_tex (uniforms p) "tDiffuse2" = Some SaveTarget /\
  read_float (uniforms p) "mixRatio" == ratio /\
  read_float (uniforms p) "opacity" == 1.

Definition copy_pass_ok (k : PassKind) (swap : bool) (p : Pass) : Prop :=
  kind p = k /\ needsSwap p = swap /\ enabled p = true /\
  is_Some (uniforms p !! "tDiffuse") /\ read_float (uniforms p) "opacity" == 1.

Definition has_target (store : Store) (id : RTId) (t : TextureDataType) : Prop :=
  exists rt, store !! id = Some rt /\ rt_type rt = t.

Definition composer_ok (c : Composer) : Prop :=
  (exists p0 p1 p2 p3, passes c = [p0; p1; p2; p3] /\ render_pass_ok p0 /\
     blend_pass_ok p1 /\ copy_pass_ok (SavePassK SaveTarget) false p2 /\
     copy_pass_ok (ShaderPassK CopyShader "tDiffuse") true p3) /\
  ((readBuffer c = ComposerTarget1 /\ writeBuffer c = ComposerTarget2) \/
   (readBuffer c = ComposerTarget2 /\ writeBuffer c = ComposerTarget1)) /\
  has_target (targets c) ComposerTarget1 HalfFloatType /\
  has_target (targets c) ComposerTarget2 HalfFloatType /\
  has_target (targets c) SaveTarget ty.
End WellFormed.

(** The history: the content of the save target. *)
Definition composer_history (c : Composer) : Texture :=
  match targets c !! SaveTarget with
  | Some rt => rt_texture rt
  | None => tconst vzero
  end.

(** One tick of the compositor: render, then what reached the screen. *)
Definition composer_present (c : Composer) (scene : Texture) : option (Texture * Composer) :=
  c' ← composer_render scene c;
  o ← screen c';
  Some (o, c').

(** ** Lemmas on single passes *)

Lemma sample_target store id rt :
  store !! id = Some rt -> sample store (Some id) = Some (rt_texture rt).
Proof. intros H. unfold sample. by rewrite H. Qed.

Lemma bind_input_slot tid u rb :
  is_Some (u !! tid) -> bind_input tid u rb = assign_uniform tid (UTex (Some rb)) u.
Proof. intros H. unfold bind_input. by rewrite (proj2 (has_slot_spec u tid) H). Qed.

(** The blend program reads the composer's input and the save target. *)
Lemma run_blend u store R rtR rtS :
  is_Some (u !! "tDiffuse1") -> read_tex u "tDiffuse2" = Some SaveTarget ->
  store !! R = Some rtR -> store !! SaveTarget = Some rtS ->
  run_program BlendShader (bind_input "tDiffuse1" u R) store =
  Some (blend_frag (read_float u "opacity") (read_float u "mixRatio")
          (rt_texture rtR) (rt_texture rtS)).
Proof.
  intros Hs Ht HR HS. rewrite bind_input_slot by done. simpl.
  rewrite read_tex_assign, (sample_target _ _ _ HR).
  rewrite read_tex_assign_ne, Ht by done. rewrite (sample_target _ _ _ HS). simpl.
  by rewrite !read_float_assign_ne by done.
Qed.

Lemma run_copy u store R rt :
  is_Some (u !! "tDiffuse") -> store !! R = Some rt ->
  run_program CopyShader (bind_input "tDiffuse" u R) store =
  Some (copy_frag (read_float u "opacity") (rt_texture rt)).
Proof.
  intros Hs HR. rewrite bind_input_slot by done. simpl.
  rewrite read_tex_assign, (sample_target _ _ _ HR). simpl.
  by rewrite read_float_assign_ne by done.
Qed.

Lemma write_target_some id t store rt :
  store !! id = Some rt -> write_target id t store = Some (<[id := rt_write rt t]> store).
Proof. intros H. unfold write_target. by rewrite H. Qed.

(** One enabled pass of the composer loop. *)
Lemma run_passes_enabled all i p rest scene c p' c1 :
  enabled p = true ->
  pass_render (set_renderToScreen p (is_last_enabled all i)) scene c = Some (p', c1) ->
  run_passes all i (p :: rest) scene c =
  '(ps', c3) ← run_passes all (S i) rest scene
                 (if needsSwap p' then swap_buffers c1 else c1);
  Some (p' :: ps', c3).
Proof. intros He Hr. simpl. by rewrite He, Hr. Qed.

Lemma rt_write_texture_half rt t :
  rt_type rt = HalfFloatType -> rt_texture (rt_write rt t) = t.
Proof. intros H. unfold rt_write. simpl. by rewrite H. Qed.

Lemma rt_write_type rt t : rt_type (rt_write rt t) = rt_type rt.
Proof. done. Qed.

Lemma has_target_insert store id id' rt t ty :
  has_target store id' ty -> store !! id = Some rt ->
  has_target (<[id := rt_write rt t]> store) id' ty.
Proof.
  intros (rt' & H' & Ht) H. destruct (decide (id = id')) as [<-|Hne].
  - exists (rt_write rt t). rewrite lookup_insert_eq. simplify_eq. done.
  - exists rt'. by rewrite lookup_insert_ne.
Qed.

(** ** Well-formedness is kept by a render *)

Lemma render_pass_ok_set p b : render_pass_ok p -> render_pass_ok (set_renderToScreen p b).
Proof. done. Qed.

Lemma blend_pass_ok_bind r p b R :
  blend_pass_ok r p ->
  blend_pass_ok r (set_pass_uniforms (set_renderToScreen p b) (bind_input "tDiffuse1" (uniforms p) R)).
Proof.
  intros (K & N & E & S & T & M & O). rewrite bind_input_slot by done.
  repeat split; cbn; try done.
  - rewrite assign_uniform_lookup. by eexists.
  - by rewrite read_tex_assign_ne.
  - by rewrite read_float_assign_ne.
  - by rewrite read_float_assign_ne.
Qed.

Lemma copy_pass_ok_bind k s p b R :
  copy_pass_ok k s p ->
  copy_pass_ok k s (set_pass_uniforms (set_renderToScreen p b) (bind_input "tDiffuse" (uniforms p) R)).
Proof.
  intros (K & N & E & S & O). rewrite bind_input_slot by done.
  repeat split; cbn; try done.
  - rewrite assign_uniform_lookup. by eexists.
  - by rewrite read_float_assign_ne.
Qed.

Ltac pass_step :=
  unfold pass_render;
  cbn [kind set_renderToScreen renderToScreen targets readBuffer writeBuffer
       swap_buffers set_targets set_screen uniforms].

(** The scene pass draws into the read buffer. *)
Lemma render_pass_render p scene c rt :
  kind p = RenderPassK -> targets c !! readBuffer c = Some rt ->
  pass_render (set_renderToScreen p false) scene c =
  Some (set_renderToScreen p false, set_targets c (<[readBuffer c := rt_write rt scene]> (targets c))).
Proof. intros K H. pass_step. rewrite K. unfold draw_to. cbn. by rewrite (write_target_some _ _ _ _ H). Qed.

(** A shader pass that is not the last draws into the write buffer. *)
Lemma shader_pass_offscreen p sh tid scene c out rt :
  kind p = ShaderPassK sh tid ->
  run_program sh (bind_input tid (uniforms p) (readBuffer c)) (targets c) = Some out ->
  targets c !! writeBuffer c = Some rt ->
  pass_render (set_renderToScreen p false) scene c =
  Some (set_pass_uniforms (set_renderToScreen p false) (bind_input tid (uniforms p) (readBuffer c)),
        set_targets c (<[writeBuffer c := rt_write rt out]> (targets c))).
Proof.
  intros K Hr H. pass_step. rewrite K, Hr. unfold draw_to. cbn.
  by rewrite (write_target_some _ _ _ _ H).
Qed.

(** The last shader pass draws to the screen. *)
Lemma shader_pass_onscreen p sh tid scene c out :
  kind p = ShaderPassK sh tid ->
  run_program sh (bind_input tid (uniforms p) (readBuffer c)) (targets c) = Some out ->
  pass_render (set_renderToScreen p true) scene c =
  Some (set_pass_uniforms (set_renderToScreen p true) (bind_input tid (uniforms p) (readBuffer c)),
        set_screen c out).
Proof. intros K Hr. pass_step. rewrite K, Hr. reflexivity. Qed.

(** The save pass copies the read buffer into its own target. *)
Lemma save_pass_render p tgt b scene c out rt :
  kind p = SavePassK tgt ->
  run_program CopyShader (bind_input "tDiffuse" (uniforms p) (readBuffer c)) (targets c) = Some out ->
  targets c !! tgt = Some rt ->
  pass_render (set_renderToScreen p b) scene c =
  Some (set_pass_uniforms (set_renderToScreen p b) (bind_input "tDiffuse" (uniforms p) (readBuffer c)),
        set_targets c (<[tgt := rt_write rt out]> (targets c))).
Proof.
  intros K Hr H. pass_step. rewrite K, Hr. cbn. by rewrite (write_target_some _ _ _ _ H).
Qed.

(** The buffers of a well-formed composer are distinct half-float targets. *)
Lemma composer_ok_buffers ratio ty c :
  composer_ok ratio ty c ->
  readBuffer c <> writeBuffer c /\ readBuffer c <> SaveTarget /\ writeBuffer c <> SaveTarget /\
  has_target (targets c) (readBuffer c) HalfFloatType /\
  has_target (targets c) (writeBuffer c) HalfFloatType.
Proof.
  intros (_ & Hbuf & T1 & T2 & _).
  destruct Hbuf as [[-> ->]|[-> ->]]; repeat split; done.
Qed.

Ltac has_target_inserts :=
  repeat (eapply has_target_insert; [|by rewrite ?lookup_insert_ne]).

(** The refinement lemma: one [EffectComposer.render] of a well-formed
    composer succeeds, shows the blend of the scene with the save target
    and stores that blend in the save target. *)
Lemma composer_render_spec ratio ty c scene :
  composer_ok ratio ty c ->
  exists c', composer_render scene c = Some c' /\
    (exists o, screen c' = Some o /\ o ≡ blur_output ratio (composer_history c) scene) /\
    composer_history c' ≡ blur_step ratio ty (composer_history c) scene /\
    composer_ok ratio ty c'.
Proof.
  intros Hok. pose proof (composer_ok_buffers _ _ _ Hok)
    as (HRW & HRS & HWS & (rtR & HR & HRt) & (rtW & HW & HWt)).
  destruct Hok as [(p0 & p1 & p2 & p3 & Hps & H0 & H1 & H2 & H3) [Hbuf [T1 [T2 (rtS & HS & HSt)]]]].
  pose proof H0 as (K0&N0&E0). pose proof H1 as (K1&N1&E1&S1&T1'&M1&O1).
  pose proof H2 as (K2&N2&E2&S2&O2). pose proof H3 as (K3&N3&E3&S3&O3).
  unfold composer_render. rewrite Hps.
  erewrite run_passes_enabled; [|done|cbn; rewrite E1; by apply render_pass_render].
  cbn [needsSwap set_renderToScreen]. rewrite N0.
  erewrite run_passes_enabled;
    [|done|cbn; rewrite E2; eapply shader_pass_offscreen; [done| |]];
    [| pass_step; erewrite run_blend;
         [reflexivity|done|done|apply lookup_insert_eq|by rewrite lookup_insert_ne]
     | pass_step; by rewrite lookup_insert_ne].
  cbn [needsSwap set_pass_uniforms set_renderToScreen]. rewrite N1.
  erewrite run_passes_enabled; [|done|cbn; rewrite E3; eapply save_pass_render; [done| |]];
    [| pass_step; erewrite run_copy; [reflexivity|done|apply lookup_insert_eq]
     | pass_step; by rewrite !lookup_insert_ne].
  cbn [needsSwap set_pass_uniforms set_renderToScreen]. rewrite N2.
  erewrite run_passes_enabled; [|done|eapply shader_pass_onscreen; [done|]];
    [|pass_step; erewrite run_copy;
        [reflexivity|done|rewrite lookup_insert_ne; [apply lookup_insert_eq|done]]].
  cbn [needsSwap set_pass_uniforms set_renderToScreen]. rewrite N3. cbn.
  eexists. split; [reflexivity|].
  unfold composer_history. cbn. rewrite HS, lookup_insert_eq, HWt, HRt. cbn [store_conv].
  split; [|split].
  - eexists. split; [reflexivity|]. cbn. rewrite O3, copy_frag_1, O1, M1. reflexivity.
  - unfold rt_write. cbn [rt_texture rt_type].
    rewrite HSt, O2, copy_frag_1, O1, M1. reflexivity.
  - split; [|split; [done|split; [|split]]]; cbn;
      [|has_target_inserts; first [done | by exists rtS]..].
    do 4 eexists. split; [reflexivity|].
    split; [by apply render_pass_ok_set|]. split; [by apply blend_pass_ok_bind|].
    split; by apply copy_pass_ok_bind.
Qed.

(** ** The composer implements the motion-blur contract *)

#[export] Instance composer_blur : BlurCompositor Composer :=
  {| bc_history := composer_history; bc_present := composer_present |}.

#[export] Instance composer_contract ratio ty :
  BlurContract Composer ratio ty (composer_ok ratio ty).
Proof.
  constructor. intros c scene Hok.
  destruct (composer_render_spec ratio ty c scene Hok)
    as (c' & Hr & (o & Ho & Hout) & Hh & Hok').
  exists o, c'. cbn. unfold composer_present. rewrite Hr. cbn. by rewrite Ho.
Qed.

(** The set-up of lines 124-153 on the host composer. *)
Lemma setup_postprocessing_spec w h :
  exists c, setup_postprocessing w h (host_composer w h) = inr c /\
    composer_ok MOTION_BLUR_AMOUNT UnsignedByteType c /\
    composer_history c = tconst vzero.
Proof.
  eexists. split; [reflexivity|]. split; [|reflexivity].
  split; [|split; [|split; [|split]]].
  - do 4 eexists. split; [reflexivity|].
    repeat split; try reflexivity; by eexists.
  - by right.
  - by eexists.
  - by eexists.
  - by eexists.
Qed.

(** ** Theorems about the compositor of app.js *)

(** C1: the compositor of app.js refines the motion-blur contract.  The
    set-up of lines 124-153 on the host composer succeeds, and over the
    scenes of any number of ticks the EffectComposer never fails, shows
    [mix(C, A, 0.725)] each tick, and keeps as history that frame rounded
    to the 8-bit save target, starting from transparent black. *)
Theorem app_compositor_refines w h scenes :
  exists c, setup_postprocessing w h (host_composer w h) = inr c /\
    exists outs c', present_all c scenes = Some (outs, c') /\
      Forall2 (≡) outs (run_outputs MOTION_BLUR_AMOUNT UnsignedByteType (tconst vzero) scenes) /\
      composer_history c' ≡ run_history MOTION_BLUR_AMOUNT UnsignedByteType (tconst vzero) scenes.
Proof.
  destruct (setup_postprocessing_spec w h) as (c & Hc & Hok & Hh).
  exists c. split; [done|].
  destruct (present_all_refines MOTION_BLUR_AMOUNT UnsignedByteType
              (composer_ok MOTION_BLUR_AMOUNT UnsignedByteType) c (tconst vzero) scenes Hok)
    as (outs & c' & Hrun & Houts & Hh' & _).
  { cbn. by rewrite Hh. }
  by exists outs, c'.
Qed.

(** C5: the first frame is not the rendered scene.  The save target
    starts as transparent black, so the first displayed frame is the scene
    scaled by [1 - 0.725]: every channel that is not 0 in the scene is
    dimmed, where the spec (section 4.3) asks the first output to equal
    the rendered frame. *)
Theorem app_first_frame w h scene p ch :
  ~ (vget ch (scene p) == 0) ->
  exists c, setup_postprocessing w h (host_composer w h) = inr c /\
    exists c' o, composer_render scene c = Some c' /\ screen c' = Some o /\
      vget ch (o p) == (1 - MOTION_BLUR_AMOUNT) * vget ch (scene p) /\
      ~ (vget ch (o p) == vget ch (scene p)).
Proof.
  intros Hnz. destruct (setup_postprocessing_spec w h) as (c & Hc & Hok & Hh).
  exists c. split; [done|].
  destruct (composer_render_spec _ _ c scene Hok) as (c' & Hr & (o & Ho & Hout) & _).
  exists c', o. split; [done|]. split; [done|].
  rewrite Hh, blur_output_zero in Hout.
  specialize (Hout p). rewrite vec4_equiv_channels in Hout. specialize (Hout ch).
  rewrite vget_vscale in Hout. rewrite Hout.
  split; [reflexivity|]. unfold MOTION_BLUR_AMOUNT. intros He. apply Hnz. lra.
Qed.

Lemma app_first_frame_witness :
  exists c, setup_postprocessing 4 3 (host_composer 4 3) = inr c /\
    exists c' o, composer_render (tconst (Vec4 1 1 1 1)) c = Some c' /\ screen c' = Some o /\
      vget ChR (o (0, 0)%nat) == (1 - MOTION_BLUR_AMOUNT) * 1 /\
      ~ (vget ChR (o (0, 0)%nat) == 1).
Proof. apply (app_first_frame 4 3 (tconst (Vec4 1 1 1 1)) (0, 0)%nat ChR). simpl. lra. Defined.
