(* ===== verification/Quantized.v ===== *)
(** * The 8-bit history of the save pass

    The save pass of app.js writes into [new THREE.WebGLRenderTarget(width,
    height, renderTargetParameters)] (line 132), whose parameters give no
    [type]: the target is [UnsignedByteType], and every history channel is
    one of the 256 levels [k / 255].  This file works out what that does
    to the accumulation: one blend step moves a level [L] towards the
    scene's level [K] to [round(K + 0.725 (L - K))], so a history one level
    away from the scene is rounded back to where it was, for ever.  The
    trail of a scene change never fully clears, against the geometric
    decay the exact contract has ([MotionBlur.history_decay]).  It also
    shows that the store rounds to the nearest level and that a stored
    level survives being read and stored again, and that under a
    constant scene every channel stops changing within 256 ticks: one
    step is a monotone map of the 256 levels ([level_step]), and the
    section [Iterate] shows that iterating such a map settles.

    These theorems read the composer's half-float buffers exactly, as
    [Compositor] does; [HalfFloat] redoes the residue and settling
    results through binary16 buffers. *)

From stdpp Require Import base list.
From Stdlib Require Import QArith Qround Qabs Lqa Psatz ZArith Lia.
From S2P Require Import Prelude Frame MotionBlur Compositor.

Open Scope Q_scope.

(** The value a shader reads from an 8-bit channel holding level [k]. *)
Definition byte_level (k : Z) : Q := inject_Z k / 255.

(** ** Rounding lemmas *)

Lemma Qfloor_unique (z : Z) (x : Q) :
  inject_Z z <= x -> x < inject_Z (z + 1) -> Qfloor x = z.
Proof.
  intros H1 H2. pose proof (Qfloor_le x) as H3. pose proof (Qlt_floor x) as H4.
  assert (A : (z < Qfloor x + 1)%Z) by (rewrite Zlt_Qlt; eapply Qle_lt_trans; eauto).
  assert (B : (Qfloor x < z + 1)%Z) by (rewrite Zlt_Qlt; eapply Qle_lt_trans; eauto).
  lia.
Qed.

#[export] Instance unorm8_level_Proper : Proper (Qeq ==> eq) unorm8_level.
Proof. intros x y H. unfold unorm8_level. by rewrite H. Qed.

#[export] Instance unorm8_Proper : Proper (Qeq ==> Qeq) unorm8.
Proof. intros x y H. unfold unorm8. by rewrite H. Qed.

(** A value within half a level of level [K] is stored as [K]. *)
Lemma unorm8_level_near (K : Z) (x : Q) :
  (0 <= K <= 255)%Z ->
  inject_Z K - (1 # 2) <= x * 255 -> x * 255 < inject_Z K + (1 # 2) ->
  unorm8_level x = K.
Proof.
  intros HK H1 H2. unfold unorm8_level.
  rewrite (Qfloor_unique K); [lia| |].
  - lra.
  - rewrite inject_Z_plus. change (inject_Z 1) with 1. lra.
Qed.

Lemma vget_vmap ch f v : vget ch (vmap f v) = f (vget ch v).
Proof. by destruct ch. Qed.

(** One channel of the 8-bit history after one step. *)
Lemma blur_step_byte_channel r A C p ch :
  vget ch (blur_step r UnsignedByteType A C p)
  = unorm8 (1 * mix (vget ch (C p)) (vget ch (A p)) r).
Proof.
  unfold blur_step, blur_output. cbn [store_conv]. rewrite vget_vmap.
  by rewrite vget_blend_frag.
Qed.

(** With the ratio of app.js, one level above the scene is a fixed point. *)
Lemma stuck_step (K : Z) :
  (0 <= K <= 254)%Z ->
  unorm8 (1 * mix (byte_level K) (byte_level (K + 1)) MOTION_BLUR_AMOUNT)
  == byte_level (K + 1).
Proof.
  intros HK. unfold unorm8, byte_level. rewrite (unorm8_level_near (K + 1)); [reflexivity|lia| |];
    rewrite inject_Z_plus; change (inject_Z 1) with 1;
    unfold mix, MOTION_BLUR_AMOUNT; field_simplify; lra.
Qed.

(** Rounding a value of [0, 1] to 8 bits moves it by half a level at most. *)
Lemma unorm8_error x : in_unit x -> Qabs (unorm8 x - x) <= 1 # 510.
Proof.
  intros Hx. pose proof (Qfloor_le (x * 255 + (1 # 2))) as H1.
  pose proof (Qlt_floor (x * 255 + (1 # 2))) as H2.
  set (l := Qfloor (x * 255 + (1 # 2))) in *.
  assert (Hl : (0 <= l <= 255)%Z).
  { unfold in_unit in Hx. split.
    - cut (-1 < l)%Z; [lia|]. rewrite Zlt_Qlt, inject_Z_plus in *.
      change (inject_Z (-1)) with (-1). change (inject_Z 1) with 1 in H2. lra.
    - cut (l < 256)%Z; [lia|]. rewrite Zlt_Qlt. change (inject_Z 256) with 256. lra. }
  unfold unorm8, unorm8_level. fold l.
  rewrite Z.min_r, Z.max_r by lia.
  rewrite inject_Z_plus in H2. change (inject_Z 1) with 1 in H2.
  apply Qabs_Qle_condition. unfold Qdiv. change (/ 255) with (1 # 255). split; lra.
Qed.

(** ** The level dynamics of one channel

    Read back from the 8-bit target, a channel holding level [L] is
    [byte_level L]; blending it with a scene channel [c] and storing the
    result gives the next level. *)
Definition level_step (r c : Q) (L : Z) : Z := unorm8_level (1 * mix c (byte_level L) r).

Lemma byte_level_scale k : byte_level k * 255 == inject_Z k.
Proof. unfold byte_level. field. Qed.

Lemma unorm8_level_mono x y : x <= y -> (unorm8_level x <= unorm8_level y)%Z.
Proof.
  intros H. unfold unorm8_level.
  assert (x * 255 + (1 # 2) <= y * 255 + (1 # 2)) as Hf%Qfloor_resp_le by lra.
  lia.
Qed.

(** With a non-negative ratio, a higher history level never gives a lower
    next level. *)
Lemma level_step_mono r c L L' :
  0 <= r -> (L <= L')%Z -> (level_step r c L <= level_step r c L')%Z.
Proof.
  intros Hr HL. apply unorm8_level_mono. rewrite Zle_Qle in HL.
  pose proof (byte_level_scale L). pose proof (byte_level_scale L'). unfold mix. nra.
Qed.

Lemma level_step_range r c L : (0 <= level_step r c L <= 255)%Z.
Proof. apply unorm8_level_range. Qed.

(** A monotone sequence of levels has a step where it stays put, among
    its first 256 steps. *)
Lemma mono_seq_settles (s : nat -> Z) :
  (forall n, (s n <= s (S n))%Z) -> (forall n, (0 <= s n <= 255)%Z) ->
  exists n, (n <= 255)%nat /\ s (S n) = s n.
Proof.
  intros Hmono Hr.
  assert (Hk : forall k, (exists n, (n < k)%nat /\ s (S n) = s n)
                         \/ (s O + Z.of_nat k <= s k)%Z).
  { induction k as [|k [(n & Hn & He)|Hk]].
    - right. cbn. lia.
    - left. exists n. split; [lia|exact He].
    - destruct (Z.eq_dec (s (S k)) (s k)) as [He|Hne].
      + left. exists k. split; [lia|exact He].
      + right. specialize (Hmono k). lia. }
  destruct (Hk 256%nat) as [(n & Hn & He)|H].
  - exists n. split; [lia|exact He].
  - pose proof (Hr O). pose proof (Hr 256%nat). lia.
Qed.

Section Iterate.
Context (f : Z -> Z).
Hypothesis f_mono : forall x y, (x <= y)%Z -> (f x <= f y)%Z.
Hypothesis f_range : forall x, (0 <= f x <= 255)%Z.

Lemma iter_range y n : (0 <= y <= 255)%Z -> (0 <= Nat.iter n f y <= 255)%Z.
Proof. intros Hy. destruct n; [exact Hy|apply f_range]. Qed.

Lemma iter_up y n : (y <= f y)%Z -> (Nat.iter n f y <= Nat.iter (S n) f y)%Z.
Proof. intros H. induction n as [|n IH]; [exact H|apply f_mono, IH]. Qed.

Lemma iter_down y n : (f y <= y)%Z -> (Nat.iter (S n) f y <= Nat.iter n f y)%Z.
Proof. intros H. induction n as [|n IH]; [exact H|apply f_mono, IH]. Qed.

(** Once the iteration repeats a value, it stays there. *)
Lemma iter_fixed y n m :
  Nat.iter (S n) f y = Nat.iter n f y -> (n <= m)%nat -> Nat.iter m f y = Nat.iter n f y.
Proof.
  intros Hfix Hm. induction Hm as [|m _ IH]; [done|].
  rewrite Nat.iter_succ, IH. exact Hfix.
Qed.

(** A monotone map of the 256 levels into themselves reaches a fixed
    point of its iteration within 255 steps. *)
Lemma iter_settles y :
  (0 <= y <= 255)%Z ->
  exists n, (n <= 255)%nat /\ forall m, (n <= m)%nat -> Nat.iter m f y = Nat.iter n f y.
Proof.
  intros Hy.
  assert (exists n, (n <= 255)%nat /\ Nat.iter (S n) f y = Nat.iter n f y) as (n & Hn & Hfix).
  { destruct (Z.le_ge_cases y (f y)) as [Hup|Hdown].
    - apply mono_seq_settles; [intros; by apply iter_up | intros; by apply iter_range].
    - destruct (mono_seq_settles (fun n => 255 - Nat.iter n f y)%Z) as (n & Hn & He).
      + intros k. pose proof (iter_down y k Hdown). lia.
      + intros k. pose proof (iter_range y k Hy). lia.
      + exists n. split; [exact Hn|lia]. }
  exists n. split; [exact Hn|]. intros m Hm. by apply iter_fixed.
Qed.
End Iterate.

(** A history channel at level [L] follows the iteration of [level_step]
    under a constant scene. *)
Lemma history_levels r A C p ch L n :
  vget ch (A p) == byte_level L ->
  vget ch (run_history r UnsignedByteType A (repeat C n) p)
  == byte_level (Nat.iter n (level_step r (vget ch (C p))) L).
Proof.
  revert A L. induction n as [|n IH]; intros A L HA; [exact HA|].
  cbn [repeat run_history]. rewrite Nat.iter_succ_r. apply IH.
  rewrite blur_step_byte_channel, HA. reflexivity.
Qed.

(** After the first tick, a channel of the 8-bit history follows the
    iteration of [level_step] from some level, and that iteration is
    constant from some step [n <= 255] on. *)
Lemma byte_history_eventually r A C p ch :
  0 <= r ->
  exists L1 n, (n <= 255)%nat /\
    (0 <= Nat.iter n (level_step r (vget ch (C p))) L1 <= 255)%Z /\
    (forall m, (n <= m)%nat -> Nat.iter m (level_step r (vget ch (C p))) L1
                              = Nat.iter n (level_step r (vget ch (C p))) L1) /\
    forall m, vget ch (run_history r UnsignedByteType A (repeat C (S m)) p)
              == byte_level (Nat.iter m (level_step r (vget ch (C p))) L1).
Proof.
  intros Hr. set (c := vget ch (C p)).
  set (L1 := unorm8_level (1 * mix c (vget ch (A p)) r)).
  destruct (iter_settles (level_step r c) (fun x y => level_step_mono r c x y Hr)
              (level_step_range r c) L1 (unorm8_level_range _)) as (n & Hn & Hfix).
  exists L1, n. split; [exact Hn|].
  split; [apply iter_range; [apply level_step_range | apply unorm8_level_range]|].
  split; [exact Hfix|]. intros m. cbn [repeat run_history].
  apply history_levels. rewrite blur_step_byte_channel. reflexivity.
Qed.

(** ** Levels: injectivity and the rounding boundaries *)

#[export] Instance level_step_Proper : Proper (Qeq ==> Qeq ==> eq ==> eq) level_step.
Proof. intros r r' Hr c c' Hc L ? <-. unfold level_step. by rewrite Hr, Hc. Qed.

Lemma Qdiff_inject_Z (L K : Z) : inject_Z L - inject_Z K == inject_Z (L - K).
Proof. unfold Qminus. rewrite <- inject_Z_opp, <- inject_Z_plus. reflexivity. Qed.

Lemma byte_level_inj L L' : byte_level L == byte_level L' <-> L = L'.
Proof.
  split; [|intros ->; reflexivity]. intros H. apply inject_Z_injective.
  rewrite <- (byte_level_scale L), <- (byte_level_scale L'), H. reflexivity.
Qed.

Lemma unorm8_level_below x (L : Z) :
  (0 < L)%Z -> x * 255 + (1 # 2) < inject_Z L -> (unorm8_level x < L)%Z.
Proof.
  intros HL Hx. pose proof (Qfloor_le (x * 255 + (1 # 2))) as H.
  assert (Qfloor (x * 255 + (1 # 2)) < L)%Z by (rewrite Zlt_Qlt; lra).
  unfold unorm8_level. lia.
Qed.

Lemma unorm8_level_above x (L : Z) :
  (L < 255)%Z -> inject_Z L + 1 <= x * 255 + (1 # 2) -> (L < unorm8_level x)%Z.
Proof.
  intros HL Hx. assert (inject_Z (L + 1) <= x * 255 + (1 # 2)) as H%Qfloor_resp_le
    by (rewrite inject_Z_plus; exact Hx).
  rewrite Qfloor_Z in H. unfold unorm8_level. lia.
Qed.

(** ** Theorems *)

(** C4: the ghost never clears.  When the history of a texel is one
    8-bit level above a scene that stays at level [K], the blend at ratio
    0.725 and the save into the [UnsignedByteType] target store the same
    level again: after any number of ticks the history is still one level
    off, while the spec (section 8, property 1) expects convergence to the
    scene. *)
Theorem ghost_persists (K : Z) A C n p ch :
  (0 <= K <= 254)%Z ->
  vget ch (C p) == byte_level K ->
  vget ch (A p) == byte_level (K + 1) ->
  vget ch (run_history MOTION_BLUR_AMOUNT UnsignedByteType A (repeat C n) p)
  == byte_level (K + 1).
Proof.
  intros HK HC. revert A. induction n as [|n IH]; intros A HA; [exact HA|].
  cbn [repeat run_history]. apply IH.
  rewrite blur_step_byte_channel, HC, HA. by apply stuck_step.
Qed.

Lemma ghost_persists_witness :
  (0 <= 0 <= 254)%Z /\
  vget ChR (tconst vzero (0, 0)%nat) == byte_level 0 /\
  vget ChR (tconst (Vec4 (1 # 255) 0 0 1) (0, 0)%nat) == byte_level (0 + 1) /\
  vget ChR (run_history MOTION_BLUR_AMOUNT UnsignedByteType (tconst (Vec4 (1 # 255) 0 0 1))
              (repeat (tconst vzero) 30) (0, 0)%nat) == byte_level (0 + 1).
Proof.
  split; [lia|]. split; [reflexivity|]. split; [reflexivity|].
  apply ghost_persists; [lia | reflexivity | reflexivity].
Defined.

(** C17: the 8-bit storage round trip.  A level [k] of [0, 255] read
    back from the [UnsignedByteType] save target as [k / 255] and stored
    into it again is stored as the same level [k], so passing an 8-bit
    texel through a copy loses nothing; and a colour [x] of [0, 1]
    stored and read back comes back within half a level, [1/510], of
    [x]: the store rounds to the nearest level. *)
Theorem unorm8_level_byte_level k x :
  (0 <= k <= 255)%Z -> in_unit x ->
  unorm8_level (byte_level k) = k /\ Qabs (byte_level (unorm8_level x) - x) <= 1 # 510.
Proof.
  intros Hk Hx. split; [|exact (unorm8_error x Hx)].
  pose proof (byte_level_scale k). apply unorm8_level_near; [exact Hk|lra|lra].
Qed.

Lemma unorm8_level_byte_level_witness :
  (0 <= 255 <= 255)%Z /\ in_unit (1 # 3) /\
  unorm8_level (byte_level 255) = 255%Z /\
  Qabs (byte_level (unorm8_level (1 # 3)) - (1 # 3)) <= 1 # 510.
Proof.
  assert (Hx : in_unit (1 # 3)) by (unfold in_unit; lra).
  split; [lia|]. split; [exact Hx|]. apply unorm8_level_byte_level; [lia|exact Hx].
Defined.

(** C18: the 8-bit trail stops changing.  Under a constant scene, with a
    non-negative ratio (0.725 in app.js), every channel of the history
    kept in the [UnsignedByteType] save target reaches its final value
    within 256 ticks and keeps it for ever, and that value is one of the
    256 levels: the sequence of levels is monotone, as rounding is, and
    has only 256 values to pass. *)
Theorem byte_history_settles r A C p ch :
  0 <= r ->
  exists n L, (n <= 256)%nat /\ (0 <= L <= 255)%Z /\ forall m, (n <= m)%nat ->
    vget ch (run_history r UnsignedByteType A (repeat C m) p)
    == vget ch (run_history r UnsignedByteType A (repeat C n) p) /\
    vget ch (run_history r UnsignedByteType A (repeat C m) p) == byte_level L.
Proof.
  intros Hr. destruct (byte_history_eventually r A C p ch Hr) as (L1 & n & Hn & HL & Hfix & Hh).
  exists (S n), (Nat.iter n (level_step r (vget ch (C p))) L1).
  split; [lia|]. split; [exact HL|]. intros [|m] Hm; [lia|].
  rewrite !Hh, Hfix by lia. split; reflexivity.
Qed.

Lemma byte_history_settles_witness :
  0 <= MOTION_BLUR_AMOUNT /\
  exists n L, (n <= 256)%nat /\ (0 <= L <= 255)%Z /\ forall m, (n <= m)%nat ->
    vget ChR (run_history MOTION_BLUR_AMOUNT UnsignedByteType (tconst (Vec4 1 1 1 1))
                (repeat (tconst vzero) m) (0, 0)%nat)
    == vget ChR (run_history MOTION_BLUR_AMOUNT UnsignedByteType (tconst (Vec4 1 1 1 1))
                (repeat (tconst vzero) n) (0, 0)%nat) /\
    vget ChR (run_history MOTION_BLUR_AMOUNT UnsignedByteType (tconst (Vec4 1 1 1 1))
                (repeat (tconst vzero) m) (0, 0)%nat) == byte_level L.
Proof.
  assert (Hr : 0 <= MOTION_BLUR_AMOUNT) by (unfold MOTION_BLUR_AMOUNT; lra).
  split; [exact Hr|]. exact (byte_history_settles _ _ _ (0, 0)%nat ChR Hr).
Defined.
