(* ===== verification/HalfFloat.v ===== *)
(** * The composer's binary16 buffers

    The EffectComposer of render/init.js renders into two [HalfFloatType]
    targets (three.js r153 and later), and the passes of app.js read and
    write them: the scene is drawn into one, the blend pass writes its
    result into the other, and the save pass copies that result into its
    8-bit target (lines 131-137).  [Compositor] reads these buffers back
    exactly; this file models what a binary16 buffer stores, a value with
    11 significant bits rounded to nearest, ties to even ([half_round]),
    and works out what that changes in the 8-bit history.

    A binary16 colour is within [2^-11] of the colour written, and the
    history kept through the buffers stays within a bound of the exact
    one, so the trail of a scene change fades to within three levels.
    Rounding to binary16 is monotone, so one tick is again a monotone map
    of the 256 levels ([level_step_half]) and every channel settles
    within 256 ticks ([Quantized.iter_settles]).  A residue of one level
    never clears, as with exact buffers ([Quantized.ghost_persists]), but
    the residues that never clear now reach two levels: with a scene at
    level 253 a history at 255 is stored again as 255 at every tick.
    Residues of three levels or more always move. *)

From stdpp Require Import base list.
From Stdlib Require Import QArith Qround Qabs Qpower Lqa Psatz ZArith Lia.
From S2P Require Import Prelude Frame MotionBlur Compositor Quantized.

Open Scope Q_scope.

(** ** Binary16 rounding *)

(** Round to nearest, ties to even. *)
Definition round_ne (y : Q) : Z :=
  let n := Qfloor y in
  match Qcompare (y - inject_Z n) (1 # 2) with
  | Lt => n
  | Gt => (n + 1)%Z
  | Eq => if Z.even n then n else (n + 1)%Z
  end.

(** The exponent of a positive binary16 value: the largest [e] of
    [15, 14, ..., -13] with [2^e <= x], and [-14] for the smallest normal
    binade and the subnormals, which share the spacing [2^-24]. *)
Fixpoint half_exp_from (fuel : nat) (e : Z) (x : Q) : Z :=
  match fuel with
  | O => e
  | S f => if Qle_bool (2 ^ e) x then e else half_exp_from f (e - 1) x
  end.

Definition half_exp (x : Q) : Z := half_exp_from 29 15 x.

(** A non-negative value stored with 11 significant bits. *)
Definition half_pos (x : Q) : Q :=
  let ulp := 2 ^ (half_exp x - 10) in
  inject_Z (round_ne (x / ulp)) * ulp.

(** What a [HalfFloatType] target stores of a channel; magnitudes above
    the largest binary16 value (65504), which no colour reaches, are
    outside the model. *)
Definition half_round (x : Q) : Q :=
  if Qle_bool 0 x then half_pos x else - half_pos (- x).

(** A texture drawn into a [HalfFloatType] target. *)
Definition half_store (t : Texture) : Texture := fun uv => vmap half_round (t uv).

(** One tick with the composer's binary16 buffers: the scene is drawn
    into one, the blend pass writes into the other, the save pass copies
    that into the 8-bit target. *)
Definition blur_step_half (r : Q) (hist scene : Texture) : Texture :=
  store_conv UnsignedByteType (half_store (blur_output r hist (half_store scene))).

Fixpoint run_history_half (r : Q) (hist : Texture) (scenes : list Texture) : Texture :=
  match scenes with
  | [] => hist
  | c :: cs => run_history_half r (blur_step_half r hist c) cs
  end.

(** ** Rounding lemmas *)

#[export] Instance round_ne_Proper : Proper (Qeq ==> eq) round_ne.
Proof.
  intros y y' H. unfold round_ne. rewrite <- (Qfloor_comp y y' H).
  assert (E : y - inject_Z (Qfloor y) == y' - inject_Z (Qfloor y))
    by (apply Qminus_comp; [exact H | reflexivity]).
  by rewrite (Qcompare_comp _ _ E (1 # 2) (1 # 2) (Qeq_refl _)).
Qed.

#[export] Instance half_exp_Proper : Proper (Qeq ==> eq) half_exp.
Proof.
  intros x y H. unfold half_exp. generalize 29%nat, 15%Z.
  intros f. induction f as [|f IH]; intros e; [done|]. cbn [half_exp_from].
  rewrite (Qleb_comp (2 ^ e) (2 ^ e) (Qeq_refl _) x y H). by rewrite IH.
Qed.

#[export] Instance half_pos_Proper : Proper (Qeq ==> Qeq) half_pos.
Proof. intros x y H. unfold half_pos. cbv zeta. by rewrite H. Qed.

#[export] Instance half_round_Proper : Proper (Qeq ==> Qeq) half_round.
Proof.
  intros x y H. unfold half_round. rewrite (Qleb_comp 0 0 (Qeq_refl _) x y H).
  destruct (Qle_bool 0 y); by rewrite H.
Qed.

Lemma round_ne_near y : Qabs (inject_Z (round_ne y) - y) <= 1 # 2.
Proof.
  unfold round_ne. pose proof (Qfloor_le y) as H1. pose proof (Qlt_floor y) as H2.
  set (n := Qfloor y) in *. rewrite inject_Z_plus in H2. change (inject_Z 1) with 1 in H2.
  apply Qabs_Qle_condition.
  destruct (Qcompare_spec (y - inject_Z n) (1 # 2)) as [H|H|H];
    [destruct (Z.even n)|..]; rewrite ?inject_Z_plus; change (inject_Z 1) with 1; split; lra.
Qed.

Lemma round_ne_nonneg y : 0 <= y -> (0 <= round_ne y)%Z.
Proof.
  intros Hy. assert (0 <= Qfloor y)%Z by (rewrite <- (Qfloor_Z 0); by apply Qfloor_resp_le).
  unfold round_ne. destruct (_ ?= _); [destruct (Z.even _)|..]; lia.
Qed.

(** Rounding never passes an integer above. *)
Lemma round_ne_le y (N : Z) : y <= inject_Z N -> (round_ne y <= N)%Z.
Proof.
  intros Hy. pose proof (Qfloor_le y) as H1.
  assert (Hn : (Qfloor y <= N)%Z) by (rewrite <- (Qfloor_Z N); by apply Qfloor_resp_le).
  unfold round_ne. set (n := Qfloor y) in *.
  destruct (Qcompare_spec (y - inject_Z n) (1 # 2)) as [H|H|H]; [destruct (Z.even n)|..];
    try lia;
    (destruct (Z.eq_dec n N) as [E|]; [|lia]; exfalso; rewrite E in H; lra).
Qed.

(** The exponent search finds a binade below the value, or ends at
    [-14]. *)
Lemma half_exp_from_spec f e x :
  2 ^ half_exp_from f e x <= x \/ half_exp_from f e x = (e - Z.of_nat f)%Z.
Proof.
  revert e. induction f as [|f IH]; intros e; cbn [half_exp_from].
  - right. lia.
  - destruct (Qle_bool (2 ^ e) x) eqn:E.
    + left. by apply Qle_bool_iff.
    + destruct (IH (e - 1)%Z) as [H|H]; [by left|right; lia].
Qed.

Lemma half_exp_le_0 x : x <= 1 -> (half_exp x <= 0)%Z.
Proof.
  intros Hx. destruct (half_exp_from_spec 29 15 x) as [H|H]; fold (half_exp x) in H.
  - apply (Qpower_le_compat_l_inv 2); [|reflexivity]. change (2 ^ 0) with 1. lra.
  - rewrite H. cbn. lia.
Qed.

Lemma half_ulp_pos x : 0 < 2 ^ (half_exp x - 10).
Proof. apply Qpower_0_lt. lra. Qed.

Lemma half_ulp_le x : x <= 1 -> 2 ^ (half_exp x - 10) <= 1 # 1024.
Proof.
  intros Hx. pose proof (half_exp_le_0 x Hx).
  change (1 # 1024) with (2 ^ (-10)). apply Qpower_le_compat_l; [lia|lra].
Qed.

(** Rounding moves a value by half the spacing of its binade at most. *)
Lemma half_pos_err_ulp x : 0 <= x -> Qabs (half_pos x - x) <= (1 # 2) * 2 ^ (half_exp x - 10).
Proof.
  intros H0. unfold half_pos. cbv zeta.
  pose proof (half_ulp_pos x) as Hu. set (u := 2 ^ (half_exp x - 10)) in *.
  pose proof (round_ne_near (x / u)) as Hn.
  set (n := inject_Z (round_ne (x / u))) in *.
  assert (E : x == (x / u) * u) by (field; lra).
  set (y := x / u) in *. rewrite E.
  apply Qabs_Qle_condition in Hn. apply Qabs_Qle_condition. split; nra.
Qed.

(** A colour of [0, 1] stored in binary16 moves by [2^-11] at most. *)
Lemma half_pos_error x : 0 <= x <= 1 -> Qabs (half_pos x - x) <= 1 # 2048.
Proof.
  intros [H0 H1]. pose proof (half_pos_err_ulp x H0). pose proof (half_ulp_le x H1). lra.
Qed.

(** And it stays in [0, 1]: 1 is on the grid of every binade below it. *)
Lemma half_pos_in_unit x : 0 <= x <= 1 -> in_unit (half_pos x).
Proof.
  intros [H0 H1]. unfold half_pos, in_unit. cbv zeta.
  pose proof (half_ulp_pos x) as Hu. pose proof (half_exp_le_0 x H1) as Hh.
  set (h := half_exp x) in *. set (u := 2 ^ (h - 10)) in *.
  assert (Einv : / u == inject_Z (2 ^ (10 - h))).
  { rewrite Zpower_Qpower by lia. unfold u. rewrite <- Qpower_opp.
    replace (- (h - 10))%Z with (10 - h)%Z by lia. reflexivity. }
  assert (Hv : 0 < / u) by (apply Qinv_lt_0_compat; exact Hu).
  assert (Huv : u * / u == 1) by (apply Qmult_inv_r; lra).
  assert (Hy0 : 0 <= x / u) by (unfold Qdiv; nra).
  assert (Hy1 : x / u <= inject_Z (2 ^ (10 - h))) by (rewrite <- Einv; unfold Qdiv; nra).
  pose proof (round_ne_nonneg _ Hy0) as Hn0. pose proof (round_ne_le _ _ Hy1) as Hn1.
  rewrite Zle_Qle in Hn0, Hn1. rewrite <- Einv in Hn1. change (inject_Z 0) with 0 in Hn0.
  set (n := inject_Z (round_ne (x / u))) in *. split; nra.
Qed.

Lemma half_round_nonneg x : 0 <= x -> half_round x = half_pos x.
Proof. intros H. unfold half_round. by rewrite (proj2 (Qle_bool_iff 0 x) H). Qed.

(** ** Monotonicity of the rounding *)

(** Rounding never falls below an integer under the value. *)
Lemma round_ne_ge y (N : Z) : inject_Z N <= y -> (N <= round_ne y)%Z.
Proof.
  intros Hy. assert (Hn : (N <= Qfloor y)%Z) by (rewrite <- (Qfloor_Z N); by apply Qfloor_resp_le).
  unfold round_ne. destruct (_ ?= _); [destruct (Z.even _)|..]; lia.
Qed.

Lemma round_ne_mono y y' : y <= y' -> (round_ne y <= round_ne y')%Z.
Proof.
  intros H. pose proof (Qfloor_resp_le _ _ H) as Hn.
  pose proof (Qfloor_le y). pose proof (Qfloor_le y').
  unfold round_ne. set (n := Qfloor y) in *. set (n' := Qfloor y') in *.
  destruct (Z.eq_dec n n') as [E|Hne].
  - clearbody n n'. subst n'.
    destruct (Qcompare_spec (y - inject_Z n) (1 # 2)), (Qcompare_spec (y' - inject_Z n) (1 # 2));
      destruct (Z.even n); lia || lra.
  - destruct (_ ?= _), (_ ?= _); destruct (Z.even n), (Z.even n'); lia.
Qed.

(** On a grid of spacing [u], rounding is monotone and stays on the
    side of a grid point. *)
Lemma round_grid_mono x y u :
  0 < u -> x <= y -> inject_Z (round_ne (x / u)) * u <= inject_Z (round_ne (y / u)) * u.
Proof.
  intros Hu H. apply Qmult_le_compat_r; [|lra]. rewrite <- Zle_Qle. apply round_ne_mono.
  unfold Qdiv. apply Qmult_le_compat_r; [exact H|]. apply Qlt_le_weak, Qinv_lt_0_compat, Hu.
Qed.

Lemma round_grid_le x u (N : Z) :
  0 < u -> x <= inject_Z N * u -> inject_Z (round_ne (x / u)) * u <= inject_Z N * u.
Proof.
  intros Hu H. apply Qmult_le_compat_r; [|lra]. rewrite <- Zle_Qle. apply round_ne_le.
  apply Qle_shift_div_r; assumption.
Qed.

Lemma round_grid_ge x u (N : Z) :
  0 < u -> inject_Z N * u <= x -> inject_Z N * u <= inject_Z (round_ne (x / u)) * u.
Proof.
  intros Hu H. apply Qmult_le_compat_r; [|lra]. rewrite <- Zle_Qle. apply round_ne_ge.
  apply Qle_shift_div_l; assumption.
Qed.

Lemma half_exp_from_le f e x : (half_exp_from f e x <= e)%Z.
Proof.
  revert e. induction f as [|f IH]; intros e; cbn [half_exp_from]; [lia|].
  destruct (Qle_bool _ _); [lia|]. specialize (IH (e - 1)%Z). lia.
Qed.

Lemma half_exp_from_ge f e x : (e - Z.of_nat f <= half_exp_from f e x)%Z.
Proof.
  revert e. induction f as [|f IH]; intros e; cbn [half_exp_from]; [lia|].
  destruct (Qle_bool _ _); [lia|]. specialize (IH (e - 1)%Z). lia.
Qed.

(** Below the first binade tried, the value is under the next power. *)
Lemma half_exp_from_upper f e x :
  (half_exp_from f e x < e)%Z -> x < 2 ^ (half_exp_from f e x + 1).
Proof.
  revert e. induction f as [|f IH]; intros e; cbn [half_exp_from]; [lia|].
  destruct (Qle_bool (2 ^ e) x) eqn:Ht; [lia|]. intros Hlt.
  destruct (Z.eq_dec (half_exp_from f (e - 1) x) (e - 1)) as [E|Hne].
  - rewrite E. replace (e - 1 + 1)%Z with e by lia.
    apply Qnot_le_lt. intros Hle. apply Qle_bool_iff in Hle. congruence.
  - apply IH. pose proof (half_exp_from_le f (e - 1) x). lia.
Qed.

Lemma half_exp_mono x y : x <= y -> (half_exp x <= half_exp y)%Z.
Proof.
  intros H. unfold half_exp. generalize 29%nat, 15%Z.
  intros f. induction f as [|f IH]; intros e; cbn [half_exp_from]; [lia|].
  destruct (Qle_bool (2 ^ e) x) eqn:Hx.
  - apply Qle_bool_iff in Hx. rewrite (proj2 (Qle_bool_iff _ _) (Qle_trans _ _ _ Hx H)). lia.
  - destruct (Qle_bool (2 ^ e) y); [|apply IH]. pose proof (half_exp_from_le f (e - 1) x). lia.
Qed.

(** [2^e] is [2^k] steps of the spacing [2^(e - k)]. *)
Lemma Qpower_2_split (e k : Z) : (0 <= k)%Z -> 2 ^ e == inject_Z (2 ^ k) * 2 ^ (e - k).
Proof.
  intros Hk. rewrite Zpower_Qpower by exact Hk. rewrite <- Qpower_plus by discriminate.
  by replace (k + (e - k))%Z with e by lia.
Qed.

Lemma half_pos_nonneg x : 0 <= x -> 0 <= half_pos x.
Proof.
  intros Hx. unfold half_pos. cbv zeta. pose proof (half_ulp_pos x) as Hu.
  apply Qmult_le_0_compat; [|lra]. change 0 with (inject_Z 0). rewrite <- Zle_Qle.
  apply round_ne_nonneg. apply Qle_shift_div_l; [exact Hu|lra].
Qed.

(** A larger value never rounds lower: within a binade the grid is the
    same, and across binades the smaller value rounds to at most the
    power of two that starts the larger one's binade, which the larger
    value rounds to at least. *)
Lemma half_pos_mono x y : 0 <= x -> x <= y -> half_pos x <= half_pos y.
Proof.
  intros Hx H. pose proof (half_exp_mono x y H) as He.
  destruct (Z.eq_dec (half_exp x) (half_exp y)) as [E|Hne].
  - unfold half_pos. cbv zeta. rewrite E. apply round_grid_mono; [apply half_ulp_pos|exact H].
  - pose proof (half_exp_from_le 29 15 y) as Hy15. fold (half_exp y) in Hy15.
    pose proof (half_exp_from_ge 29 15 x) as Hx14. fold (half_exp x) in Hx14.
    pose proof (half_exp_from_upper 29 15 x ltac:(fold (half_exp x); lia)) as Hup.
    fold (half_exp x) in Hup.
    assert (Hlo : 2 ^ half_exp y <= y).
    { destruct (half_exp_from_spec 29 15 y) as [Hb|Hb]; fold (half_exp y) in Hb; [exact Hb|].
      rewrite Hb in He, Hne. cbn in He, Hne, Hx14. lia. }
    assert (Hpow : 2 ^ (half_exp x + 1) <= 2 ^ half_exp y) by (apply Qpower_le_compat_l; [lia|lra]).
    pose proof (Qpower_2_split (half_exp x + 1) 11 ltac:(lia)) as Sx.
    pose proof (Qpower_2_split (half_exp y) 10 ltac:(lia)) as Sy.
    replace (half_exp x + 1 - 11)%Z with (half_exp x - 10)%Z in Sx by lia.
    unfold half_pos. cbv zeta.
    pose proof (round_grid_le x _ (2 ^ 11) (half_ulp_pos x) ltac:(rewrite <- Sx; lra)) as H1.
    pose proof (round_grid_ge y _ (2 ^ 10) (half_ulp_pos y) ltac:(rewrite <- Sy; lra)) as H2.
    rewrite <- Sx in H1. rewrite <- Sy in H2. lra.
Qed.

(** The stored value is monotone in the value written, negative values
    included. *)
Lemma half_round_mono x y : x <= y -> half_round x <= half_round y.
Proof.
  intros H. unfold half_round.
  assert (Hf : forall z, Qle_bool 0 z = false -> z < 0)
    by (intros z E; apply Qnot_le_lt; intros E'; apply Qle_bool_iff in E'; congruence).
  destruct (Qle_bool 0 x) eqn:Hx, (Qle_bool 0 y) eqn:Hy.
  - apply Qle_bool_iff in Hx. by apply half_pos_mono.
  - apply Qle_bool_iff in Hx. apply Hf in Hy. lra.
  - apply Hf in Hx. apply Qle_bool_iff in Hy.
    pose proof (half_pos_nonneg (- x) ltac:(lra)). pose proof (half_pos_nonneg y Hy). lra.
  - apply Hf in Hx, Hy.
    pose proof (half_pos_mono (- y) (- x) ltac:(lra) ltac:(lra)). lra.
Qed.

(** ** The history through binary16 buffers *)

Lemma blur_step_half_channel r A C p ch :
  vget ch (blur_step_half r A C p)
  = unorm8 (half_round (1 * mix (half_round (vget ch (C p))) (vget ch (A p)) r)).
Proof.
  unfold blur_step_half, half_store at 1, blur_output. cbn [store_conv].
  rewrite !vget_vmap, vget_blend_frag. unfold half_store. by rewrite vget_vmap.
Qed.

Lemma half_round_unit x : in_unit x -> in_unit (half_round x) /\ Qabs (half_round x - x) <= 1 # 2048.
Proof.
  intros Hx. rewrite half_round_nonneg by (unfold in_unit in Hx; lra).
  split; [apply half_pos_in_unit | apply half_pos_error]; exact Hx.
Qed.

(** The largest distance the history kept through the binary16 buffers
    and the 8-bit target keeps from the exact one. *)
Definition half_error_bound (r : Q) : Q := ((1 # 510) + (2 - r) * (1 # 2048)) / (1 - r).

(** One tick keeps a distance of at most the bound: half a level of the
    8-bit store, [2^-11] of the blend's binary16 store, and [2^-11] of
    the scene's, weighed by [1 - r]. *)
Lemma half_step_error r a b c :
  0 <= r < 1 -> in_unit a -> in_unit c ->
  Qabs (a - b) <= half_error_bound r ->
  Qabs (unorm8 (half_round (1 * mix (half_round c) a r)) - 1 * mix c b r) <= half_error_bound r.
Proof.
  intros Hr Ha Hc Hab.
  destruct (half_round_unit c Hc) as [Hc' Ec].
  assert (Hw : in_unit (1 * mix (half_round c) a r)).
  { assert (E : 1 * mix (half_round c) a r == mix (half_round c) a r) by ring. rewrite E.
    apply mix_in_unit; [unfold in_unit; lra | exact Hc' | exact Ha]. }
  destruct (half_round_unit _ Hw) as [Hz Ez].
  pose proof (unorm8_error _ Hz) as Eu.
  assert (HB : half_error_bound r * (1 - r) == (1 # 510) + (2 - r) * (1 # 2048))
    by (unfold half_error_bound; field; lra).
  set (B := half_error_bound r) in *. clearbody B.
  set (c' := half_round c) in *. set (z := half_round (1 * mix c' a r)) in *.
  set (u := unorm8 z) in *. clearbody c' z u.
  apply Qabs_Qle_condition in Ec, Ez, Eu, Hab. apply Qabs_Qle_condition.
  unfold mix in *. split; nra.
Qed.

Lemma half_history_near r A B scenes p ch :
  0 <= r < 1 -> Forall tex_in_unit scenes -> in_unit (vget ch (A p)) ->
  Qabs (vget ch (A p) - vget ch (B p)) <= half_error_bound r ->
  Qabs (vget ch (run_history_half r A scenes p)
        - vget ch (run_history r HalfFloatType B scenes p)) <= half_error_bound r.
Proof.
  intros Hr Hs. revert A B.
  induction Hs as [|C cs HC Hcs IH]; intros A B Ha HAB; [exact HAB|].
  cbn [run_history_half run_history]. apply IH.
  - rewrite blur_step_half_channel. apply unorm8_in_unit.
  - rewrite blur_step_half_channel. unfold blur_step, blur_output. cbn [store_conv].
    rewrite vget_blend_frag. apply half_step_error; auto.
    apply vec4_in_unit_channels, HC.
Qed.

Lemma byte_level_in_unit K : (0 <= K <= 255)%Z -> in_unit (byte_level K).
Proof.
  intros HK. pose proof (byte_level_scale K) as E. unfold in_unit.
  assert (0 <= inject_Z K <= 255) by (split; [change 0 with (inject_Z 0) | change 255 with (inject_Z 255)];
    rewrite <- Zle_Qle; lia).
  lra.
Qed.

(** ** The level dynamics through binary16 buffers

    Read back from the 8-bit target, a history channel at level [L] is
    [byte_level L]; under a scene channel [c], the tick through the
    binary16 buffers stores level [level_step_half r c L]. *)
Definition level_step_half (r c : Q) (L : Z) : Z :=
  unorm8_level (half_round (1 * mix (half_round c) (byte_level L) r)).

#[export] Instance level_step_half_Proper : Proper (Qeq ==> Qeq ==> eq ==> eq) level_step_half.
Proof. intros r r' Hr c c' Hc L ? <-. unfold level_step_half. by rewrite Hr, Hc. Qed.

Lemma level_step_half_mono r c L L' :
  0 <= r -> (L <= L')%Z -> (level_step_half r c L <= level_step_half r c L')%Z.
Proof.
  intros Hr HL. apply unorm8_level_mono, half_round_mono. rewrite Zle_Qle in HL.
  pose proof (byte_level_scale L). pose proof (byte_level_scale L'). unfold mix. nra.
Qed.

Lemma level_step_half_range r c L : (0 <= level_step_half r c L <= 255)%Z.
Proof. apply unorm8_level_range. Qed.

Lemma history_levels_half r A C p ch L n :
  vget ch (A p) == byte_level L ->
  vget ch (run_history_half r A (repeat C n) p)
  == byte_level (Nat.iter n (level_step_half r (vget ch (C p))) L).
Proof.
  revert A L. induction n as [|n IH]; intros A L HA; [exact HA|].
  cbn [repeat run_history_half]. rewrite Nat.iter_succ_r. apply IH.
  rewrite blur_step_half_channel, HA. reflexivity.
Qed.

(** After the first tick, a channel follows the iteration of
    [level_step_half] from some level, constant from some step [n <= 255]
    on: [level_step_half] is monotone, as binary16 rounding is. *)
Lemma half_history_eventually r A C p ch :
  0 <= r ->
  exists L1 n, (n <= 255)%nat /\ (0 <= L1 <= 255)%Z /\
    (forall m, (n <= m)%nat -> Nat.iter m (level_step_half r (vget ch (C p))) L1
                              = Nat.iter n (level_step_half r (vget ch (C p))) L1) /\
    forall m, vget ch (run_history_half r A (repeat C (S m)) p)
              == byte_level (Nat.iter m (level_step_half r (vget ch (C p))) L1).
Proof.
  intros Hr. set (c := vget ch (C p)).
  set (L1 := unorm8_level (half_round (1 * mix (half_round c) (vget ch (A p)) r))).
  destruct (iter_settles (level_step_half r c) (fun x y => level_step_half_mono r c x y Hr)
              (level_step_half_range r c) L1 (unorm8_level_range _)) as (n & Hn & Hfix).
  exists L1, n. split; [exact Hn|]. split; [apply unorm8_level_range|]. split; [exact Hfix|].
  intros m. cbn [repeat run_history_half].
  apply history_levels_half. rewrite blur_step_half_channel. reflexivity.
Qed.

(** The scene channel and the blend through the buffers, in levels:
    [K (1 - r) + L r] up to the two binary16 roundings. *)
Lemma level_step_half_bounds r K L :
  0 <= r <= 1 -> (0 <= K <= 255)%Z -> (0 <= L <= 255)%Z ->
  let z := half_round (1 * mix (half_round (byte_level K)) (byte_level L) r) in
  inject_Z K + r * inject_Z (L - K) - (255 # 2048) * (2 - r) <= z * 255 /\
  z * 255 <= inject_Z K + r * inject_Z (L - K) + (255 # 2048) * (2 - r).
Proof.
  intros Hr HK HL z.
  destruct (half_round_unit _ (byte_level_in_unit K HK)) as [Hc Ec].
  pose proof (byte_level_in_unit L HL) as HbL.
  set (c' := half_round (byte_level K)) in *.
  assert (Hw : in_unit (1 * mix c' (byte_level L) r)).
  { assert (E : 1 * mix c' (byte_level L) r == mix c' (byte_level L) r) by ring. rewrite E.
    apply mix_in_unit; [unfold in_unit; lra | exact Hc | exact HbL]. }
  destruct (half_round_unit _ Hw) as [_ Ez]. fold z in Ez. clearbody z.
  assert (EL : byte_level L == byte_level K + inject_Z (L - K) * (1 # 255))
    by (unfold byte_level; rewrite <- Qdiff_inject_Z; field).
  pose proof (byte_level_scale K).
  apply Qabs_Qle_condition in Ec, Ez. unfold mix in Ez. rewrite EL in Ez.
  assert (P1 : (c' - byte_level K - (1 # 2048)) * (1 - r) <= 0) by nra.
  assert (P2 : 0 <= (c' - byte_level K + (1 # 2048)) * (1 - r)) by nra.
  split; lra.
Qed.

(** Below the ratio 3/4, a level three or more away from the scene's
    level moves. *)
Lemma level_step_half_fixed r K L :
  0 <= r <= 3 # 4 -> (0 <= K <= 255)%Z -> (0 <= L <= 255)%Z ->
  level_step_half r (byte_level K) L = L -> (Z.abs (L - K) <= 2)%Z.
Proof.
  intros Hr HK HL Hfix.
  destruct (level_step_half_bounds r K L ltac:(lra) HK HL) as [Hlo Hhi].
  unfold level_step_half in Hfix. set (z := half_round _) in *. clearbody z.
  pose proof (Qdiff_inject_Z L K) as HQ.
  destruct (Z.le_gt_cases (Z.abs (L - K)) 2) as [|Hd]; [assumption|exfalso].
  destruct (Z.le_gt_cases 3 (L - K)) as [Hup|Hdown].
  - assert (HD : 3 <= inject_Z (L - K)) by (change 3 with (inject_Z 3); rewrite <- Zle_Qle; lia).
    assert (unorm8_level z < L)%Z; [|lia].
    apply unorm8_level_below; [lia|]. nra.
  - assert (HD : inject_Z (L - K) <= -3)
      by (change (-3) with (inject_Z (-3)); rewrite <- Zle_Qle; lia).
    assert (L < unorm8_level z)%Z; [|lia].
    apply unorm8_level_above; [lia|]. nra.
Qed.

(** From the ratio 2/3 on, a level within one of the scene's level is
    stored again unchanged. *)
Lemma level_step_half_near r K L :
  2 # 3 <= r <= 1 -> (0 <= K <= 255)%Z -> (0 <= L <= 255)%Z -> (Z.abs (L - K) <= 1)%Z ->
  level_step_half r (byte_level K) L = L.
Proof.
  intros Hr HK HL Hd.
  destruct (level_step_half_bounds r K L ltac:(lra) HK HL) as [Hlo Hhi].
  unfold level_step_half. set (z := half_round _) in *. clearbody z.
  pose proof (Qdiff_inject_Z L K) as HQ.
  apply unorm8_level_near; [exact HL| |];
    (assert (L - K = -1 \/ L - K = 0 \/ L - K = 1)%Z as [E|[E|E]] by lia;
     rewrite E in HQ, Hlo, Hhi; change (inject_Z (-1)) with (-1) in *;
     change (inject_Z 0) with 0 in *; change (inject_Z 1) with 1 in *; lra).
Qed.

(** ** Theorems *)

(** C29: a two-level ghost.  Through the composer's binary16 buffers,
    with the blend ratio 0.725 of app.js, a history channel at 8-bit
    level 255 under a scene channel at level 253 is stored again as 255
    at every tick, for ever: the residue that never clears is two levels,
    where exact buffers keep one ([Quantized.ghost_persists]). *)
Theorem two_level_ghost A C n p ch :
  vget ch (C p) == byte_level 253 -> vget ch (A p) == byte_level 255 ->
  vget ch (run_history_half MOTION_BLUR_AMOUNT A (repeat C n) p) == byte_level 255.
Proof.
  intros HC. revert A. induction n as [|n IH]; intros A HA; [exact HA|].
  cbn [repeat run_history_half]. apply IH.
  rewrite blur_step_half_channel, HC, HA. vm_compute. reflexivity.
Qed.

Lemma two_level_ghost_witness :
  vget ChB (tconst (Vec4 0 0 (byte_level 253) 1) (0, 0)%nat) == byte_level 253 /\
  vget ChB (tconst (Vec4 0 0 1 1) (0, 0)%nat) == byte_level 255 /\
  vget ChB (run_history_half MOTION_BLUR_AMOUNT (tconst (Vec4 0 0 1 1))
              (repeat (tconst (Vec4 0 0 (byte_level 253) 1)) 100) (0, 0)%nat) == byte_level 255.
Proof.
  split; [reflexivity|]. split; [reflexivity|].
  apply two_level_ghost; reflexivity.
Defined.

(** C30: residues of three levels or more still move.  Through the
    binary16 buffers, for a ratio in [0, 3/4] (0.725 in app.js), a
    history channel at level [L] under a scene channel at level [K] that
    the blend and save store again as [L] is at most two levels from
    [K]. *)
Theorem half_stuck_within_two r A C K L p ch :
  0 <= r <= 3 # 4 -> (0 <= K <= 255)%Z -> (0 <= L <= 255)%Z ->
  vget ch (C p) == byte_level K -> vget ch (A p) == byte_level L ->
  vget ch (blur_step_half r A C p) == vget ch (A p) -> (Z.abs (L - K) <= 2)%Z.
Proof.
  intros Hr HK HL HC HA Hfix. rewrite blur_step_half_channel, HC, HA in Hfix.
  change (unorm8 (half_round (1 * mix (half_round (byte_level K)) (byte_level L) r)))
    with (byte_level (level_step_half r (byte_level K) L)) in Hfix.
  apply (proj1 (byte_level_inj _ _)) in Hfix.
  exact (level_step_half_fixed r K L Hr HK HL Hfix).
Qed.

Lemma half_stuck_within_two_witness :
  (0 <= MOTION_BLUR_AMOUNT <= 3 # 4) /\ (0 <= 253 <= 255)%Z /\ (0 <= 255 <= 255)%Z /\
  vget ChB (tconst (Vec4 0 0 (byte_level 253) 1) (0, 0)%nat) == byte_level 253 /\
  vget ChB (tconst (Vec4 0 0 (byte_level 255) 1) (0, 0)%nat) == byte_level 255 /\
  vget ChB (blur_step_half MOTION_BLUR_AMOUNT (tconst (Vec4 0 0 (byte_level 255) 1))
              (tconst (Vec4 0 0 (byte_level 253) 1)) (0, 0)%nat)
    == vget ChB (tconst (Vec4 0 0 (byte_level 255) 1) (0, 0)%nat) /\
  (Z.abs (255 - 253) <= 2)%Z.
Proof.
  assert (Hr : 0 <= MOTION_BLUR_AMOUNT <= 3 # 4) by (unfold MOTION_BLUR_AMOUNT; lra).
  assert (Hfix : vget ChB (blur_step_half MOTION_BLUR_AMOUNT (tconst (Vec4 0 0 (byte_level 255) 1))
                   (tconst (Vec4 0 0 (byte_level 253) 1)) (0, 0)%nat)
                 == vget ChB (tconst (Vec4 0 0 (byte_level 255) 1) (0, 0)%nat))
    by (vm_compute; reflexivity).
  split; [exact Hr|]. split; [lia|]. split; [lia|]. split; [reflexivity|]. split; [reflexivity|].
  split; [exact Hfix|].
  exact (half_stuck_within_two MOTION_BLUR_AMOUNT (tconst (Vec4 0 0 (byte_level 255) 1))
           (tconst (Vec4 0 0 (byte_level 253) 1)) 253 255 (0, 0)%nat ChB Hr ltac:(lia) ltac:(lia)
           ltac:(reflexivity) ltac:(reflexivity) Hfix).
Defined.

(** C31: the history through binary16 buffers stays close to the exact
    one.  For any ratio in [0, 1), any initial history and scenes with
    channels in [0, 1], every channel of the history kept through the
    composer's binary16 buffers and the 8-bit save target is within
    [(1/510 + (2 - ratio) 2^-11) / (1 - ratio)] of the exact history:
    for 0.725 about 0.0094, 2.4 levels of 8 bits, after any number of
    ticks. *)
Theorem half_history_close r A scenes p ch :
  0 <= r < 1 -> tex_in_unit A -> Forall tex_in_unit scenes ->
  Qabs (vget ch (run_history_half r A scenes p)
        - vget ch (run_history r HalfFloatType A scenes p)) <= half_error_bound r.
Proof.
  intros Hr HA Hs. apply half_history_near; auto.
  - apply vec4_in_unit_channels, HA.
  - assert (0 <= half_error_bound r)
      by (unfold half_error_bound; apply Qle_shift_div_l; lra).
    apply Qabs_Qle_condition. lra.
Qed.

Lemma half_history_close_witness :
  (0 <= MOTION_BLUR_AMOUNT < 1) /\ tex_in_unit (tconst vzero) /\
  Forall tex_in_unit [tconst (Vec4 1 1 1 1); tconst (Vec4 0 (1 # 3) 1 1)] /\
  Qabs (vget ChG (run_history_half MOTION_BLUR_AMOUNT (tconst vzero)
                    [tconst (Vec4 1 1 1 1); tconst (Vec4 0 (1 # 3) 1 1)] (0, 0)%nat)
        - vget ChG (run_history MOTION_BLUR_AMOUNT HalfFloatType (tconst vzero)
                    [tconst (Vec4 1 1 1 1); tconst (Vec4 0 (1 # 3) 1 1)] (0, 0)%nat))
  <= half_error_bound MOTION_BLUR_AMOUNT.
Proof.
  assert (Hr : 0 <= MOTION_BLUR_AMOUNT < 1) by (unfold MOTION_BLUR_AMOUNT; lra).
  assert (HA : tex_in_unit (tconst vzero))
    by (apply tconst_in_unit, vec4_in_unit_Vec4; apply in_unit_0).
  assert (Hs : Forall tex_in_unit [tconst (Vec4 1 1 1 1); tconst (Vec4 0 (1 # 3) 1 1)])
    by (repeat constructor; apply tconst_in_unit, vec4_in_unit_Vec4; unfold in_unit; lra).
  split; [exact Hr|]. split; [exact HA|]. split; [exact Hs|].
  exact (half_history_close _ _ _ (0, 0)%nat ChG Hr HA Hs).
Defined.

(** C16: the trail fades to within three levels.  Through the binary16
    buffers and the 8-bit save target, after 20 ticks of a constant scene
    (a third of a second at 60 frames per second), whatever the history
    was, every channel of the history is less than three levels away
    from the scene: the geometric decay of the exact history
    ([0.725^20 < 0.0017]) plus the distance of [half_history_near].  Two
    levels can remain for ever ([two_level_ghost]). *)
Theorem half_trail_fades A C n p ch :
  (20 <= n)%nat -> vec4_in_unit (A p) -> tex_in_unit C ->
  Qabs (vget ch (run_history_half MOTION_BLUR_AMOUNT A (repeat C n) p) - vget ch (C p))
  < 3 # 255.
Proof.
  intros Hn HA HC.
  assert (Hr : in_unit MOTION_BLUR_AMOUNT) by (unfold in_unit, MOTION_BLUR_AMOUNT; lra).
  assert (Hs : Forall tex_in_unit (repeat C n))
    by (apply List.Forall_forall; intros x Hx; apply repeat_spec in Hx; by subst).
  pose proof (half_history_near MOTION_BLUR_AMOUNT A A (repeat C n) p ch) as Hq.
  pose proof (run_history_channel MOTION_BLUR_AMOUNT A (repeat C n) p ch) as He.
  rewrite map_repeat in He.
  pose proof (hist_q_repeat MOTION_BLUR_AMOUNT (vget ch (A p)) (vget ch (C p)) n) as Hd.
  pose proof (qpow_antitone _ 20 n Hr Hn) as Hpow.
  pose proof (qpow_in_unit MOTION_BLUR_AMOUNT n Hr) as Hpos.
  assert (H20 : MOTION_BLUR_AMOUNT ^^ 20 + half_error_bound MOTION_BLUR_AMOUNT < 3 # 255)
    by (vm_compute; reflexivity).
  assert (HB : 0 <= half_error_bound MOTION_BLUR_AMOUNT) by (vm_compute; discriminate).
  apply vec4_in_unit_channels with (ch := ch) in HA. specialize (HC p).
  apply vec4_in_unit_channels with (ch := ch) in HC.
  specialize (Hq ltac:(unfold MOTION_BLUR_AMOUNT; lra) Hs HA).
  specialize (Hq ltac:(apply Qabs_Qle_condition; lra)).
  rewrite <- He in Hd. apply Qabs_Qle_condition in Hq.
  set (X := MOTION_BLUR_AMOUNT ^^ n) in *. clearbody X.
  unfold in_unit in *. apply Qabs_Qlt_condition. split; nra.
Qed.

Lemma half_trail_fades_witness :
  (20 <= 30)%nat /\ vec4_in_unit (tconst (Vec4 1 1 1 1) (0, 0)%nat) /\ tex_in_unit (tconst vzero) /\
  Qabs (vget ChR (run_history_half MOTION_BLUR_AMOUNT (tconst (Vec4 1 1 1 1))
                    (repeat (tconst vzero) 30) (0, 0)%nat)
        - vget ChR (tconst vzero (0, 0)%nat)) < 3 # 255.
Proof.
  assert (HA : vec4_in_unit (tconst (Vec4 1 1 1 1) (0, 0)%nat))
    by (apply vec4_in_unit_Vec4; apply in_unit_1).
  assert (HC : tex_in_unit (tconst vzero))
    by (apply tconst_in_unit, vec4_in_unit_Vec4; apply in_unit_0).
  split; [lia|]. split; [exact HA|]. split; [exact HC|].
  exact (half_trail_fades _ _ 30 (0, 0)%nat ChR ltac:(lia) HA HC).
Defined.

(** C24: one-level residues never clear, through binary16 buffers too.
    For a blend ratio in [2/3, 1], which contains the 0.725 of app.js, a
    history channel at 8-bit level [L] within one level of the scene
    channel's level [K] (above, below or equal) is stored again as [L]
    by the blend through the binary16 buffers and the 8-bit save: the
    binary16 roundings move the blend by at most [0.17] of a level, too
    little to cross a rounding boundary. *)
Theorem half_one_level_stuck r A C K L p ch :
  2 # 3 <= r <= 1 -> (0 <= K <= 255)%Z -> (0 <= L <= 255)%Z -> (Z.abs (L - K) <= 1)%Z ->
  vget ch (C p) == byte_level K -> vget ch (A p) == byte_level L ->
  vget ch (blur_step_half r A C p) == vget ch (A p).
Proof.
  intros Hr HK HL Hd HC HA. rewrite blur_step_half_channel, HC, HA.
  change (unorm8 (half_round (1 * mix (half_round (byte_level K)) (byte_level L) r)))
    with (byte_level (level_step_half r (byte_level K) L)).
  by rewrite level_step_half_near.
Qed.

Lemma half_one_level_stuck_witness :
  (2 # 3 <= MOTION_BLUR_AMOUNT <= 1) /\ (0 <= 10 <= 255)%Z /\ (0 <= 9 <= 255)%Z /\
  (Z.abs (9 - 10) <= 1)%Z /\
  vget ChG (tconst (Vec4 0 (byte_level 10) 0 1) (0, 0)%nat) == byte_level 10 /\
  vget ChG (tconst (Vec4 0 (byte_level 9) 0 1) (0, 0)%nat) == byte_level 9 /\
  vget ChG (blur_step_half MOTION_BLUR_AMOUNT (tconst (Vec4 0 (byte_level 9) 0 1))
              (tconst (Vec4 0 (byte_level 10) 0 1)) (0, 0)%nat)
  == vget ChG (tconst (Vec4 0 (byte_level 9) 0 1) (0, 0)%nat).
Proof.
  assert (Hr : 2 # 3 <= MOTION_BLUR_AMOUNT <= 1) by (unfold MOTION_BLUR_AMOUNT; lra).
  split; [exact Hr|]. split; [lia|]. split; [lia|]. split; [lia|].
  split; [reflexivity|]. split; [reflexivity|].
  apply half_one_level_stuck with 10%Z 9%Z; [exact Hr | lia | lia | lia | reflexivity | reflexivity].
Defined.

(** C25: where the trail ends, through binary16 buffers.  Under a scene
    whose channel reads as level [K], with a ratio in [0, 3/4] (0.725 in
    app.js), every channel of the history kept through the binary16
    buffers and the 8-bit save target comes to rest within 256 ticks at
    a level at most two away from [K], and stays there: one tick is a
    monotone map of the 256 levels, as binary16 rounding is monotone. *)
Theorem half_trail_final r A C K p ch :
  0 <= r <= 3 # 4 -> (0 <= K <= 255)%Z -> vget ch (C p) == byte_level K ->
  exists n L, (n <= 256)%nat /\ (Z.abs (L - K) <= 2)%Z /\
    forall m, (n <= m)%nat -> vget ch (run_history_half r A (repeat C m) p) == byte_level L.
Proof.
  intros Hr HK HC.
  destruct (half_history_eventually r A C p ch (proj1 Hr)) as (L1 & n & Hn & HL1 & Hfix & Hh).
  set (Ln := Nat.iter n (level_step_half r (vget ch (C p))) L1) in *.
  assert (HLn : (0 <= Ln <= 255)%Z)
    by (apply iter_range; [apply level_step_half_range | exact HL1]).
  assert (Hstep : level_step_half r (byte_level K) Ln = Ln).
  { rewrite <- HC. unfold Ln. rewrite <- Nat.iter_succ. apply Hfix. lia. }
  exists (S n), Ln. split; [lia|].
  split; [exact (level_step_half_fixed r K Ln Hr HK HLn Hstep)|].
  intros [|m] Hm; [lia|]. rewrite Hh, Hfix by lia. reflexivity.
Qed.

Lemma half_trail_final_witness :
  (0 <= MOTION_BLUR_AMOUNT <= 3 # 4) /\ (0 <= 0 <= 255)%Z /\
  vget ChR (tconst vzero (0, 0)%nat) == byte_level 0 /\
  exists n L, (n <= 256)%nat /\ (Z.abs (L - 0) <= 2)%Z /\
    forall m, (n <= m)%nat ->
      vget ChR (run_history_half MOTION_BLUR_AMOUNT (tconst (Vec4 1 1 1 1))
                  (repeat (tconst vzero) m) (0, 0)%nat) == byte_level L.
Proof.
  assert (Hr : 0 <= MOTION_BLUR_AMOUNT <= 3 # 4) by (unfold MOTION_BLUR_AMOUNT; lra).
  split; [exact Hr|]. split; [lia|]. split; [reflexivity|].
  exact (half_trail_final MOTION_BLUR_AMOUNT (tconst (Vec4 1 1 1 1)) (tconst vzero) 0 (0, 0)%nat ChR
           Hr ltac:(lia) ltac:(reflexivity)).
Defined.
