(* ===== verification/Audio.v ===== *)
(** * The audio source: THREE.Audio and THREE.AudioAnalyser

    The [Visualizer] of app.js owns a [THREE.Audio] (line 31) and a
    [THREE.AudioAnalyser(sound, 32)] (line 34).  The sound is a record of
    the fields its methods read and write; [setBuffer], [setLoop],
    [setVolume] and [play] follow three.js (the warnings of [play] on a
    sound already playing are no-ops).  The analyser keeps a
    [Uint8Array] of [fftSize / 2] bins, a [list byte]; WebAudio's
    [getByteFrequencyData] copies the current bins into it (the bins are
    an input: the signal path is not modelled), and
    [getAverageFrequency] is their sum over their number. *)

From Stdlib Require Import QArith Qround Lqa List Lia ZArith NArith.
From Stdlib Require Import Strings.Byte.
From S2P Require Import Prelude.
Import ListNotations.

Open Scope Q_scope.

(** ** THREE.Audio *)

(** A decoded [AudioBuffer], opaque to the program. *)
Record AudioBuffer := { buffer_id : nat }.

Inductive SourceType := EmptySource | BufferSource.

Record Sound := {
  buffer : option AudioBuffer;
  sourceType : SourceType;
  loop : bool;
  volume : Q;
  isPlaying : bool;
  hasPlaybackControl : bool;
  autoplay : bool
}.

(** [new THREE.Audio(listener)]. *)
Definition new_sound : Sound :=
  {| buffer := None; sourceType := EmptySource; loop := false; volume := 1;
     isPlaying := false; hasPlaybackControl := true; autoplay := false |}.

(** [play()]: a warning and no change when already playing or without
    playback control; otherwise a buffer source starts. *)
Definition play (s : Sound) : Sound :=
  if isPlaying s || negb (hasPlaybackControl s) then s
  else {| buffer := buffer s; sourceType := sourceType s; loop := loop s;
          volume := volume s; isPlaying := true;
          hasPlaybackControl := hasPlaybackControl s; autoplay := autoplay s |}.

(** [setBuffer(audioBuffer)]: plays at once only with [autoplay]. *)
Definition setBuffer (b : AudioBuffer) (s : Sound) : Sound :=
  let s' := {| buffer := Some b; sourceType := BufferSource; loop := loop s;
               volume := volume s; isPlaying := isPlaying s;
               hasPlaybackControl := hasPlaybackControl s; autoplay := autoplay s |} in
  if autoplay s' then play s' else s'.

(** [setLoop(value)]: a warning and no change without playback control. *)
Definition setLoop (v : bool) (s : Sound) : Sound :=
  if negb (hasPlaybackControl s) then s
  else {| buffer := buffer s; sourceType := sourceType s; loop := v;
          volume := volume s; isPlaying := isPlaying s;
          hasPlaybackControl := hasPlaybackControl s; autoplay := autoplay s |}.

(** [setVolume(value)]: the target of the gain node. *)
Definition setVolume (v : Q) (s : Sound) : Sound :=
  {| buffer := buffer s; sourceType := sourceType s; loop := loop s;
     volume := v; isPlaying := isPlaying s;
     hasPlaybackControl := hasPlaybackControl s; autoplay := autoplay s |}.

(** ** THREE.AudioAnalyser *)

Record AudioAnalyser := { fftSize : nat; data : list byte }.

(** [new THREE.AudioAnalyser(audio, fftSize)]: [data] is a zeroed
    [Uint8Array(frequencyBinCount)] and [frequencyBinCount = fftSize/2]. *)
Definition new_analyser (fft : nat) : AudioAnalyser :=
  {| fftSize := fft; data := repeat x00 (Nat.div fft 2) |}.

(** [getFrequencyData()]: [getByteFrequencyData(this.data)] writes as many
    of the node's current bins as the array holds. *)
Definition getFrequencyData (bins : list byte) (a : AudioAnalyser) : AudioAnalyser :=
  {| fftSize := fftSize a;
     data := firstn (length (data a)) bins ++ skipn (length bins) (data a) |}.

Definition byte_val (b : byte) : Z := Z.of_N (Byte.to_N b).

(** [for (...) value += data[i]]. *)
Definition sum_bytes (l : list byte) : Z :=
  fold_left (fun acc b => (acc + byte_val b)%Z) l 0%Z.

(** [getAverageFrequency()]: [value / data.length]. *)
Definition getAverageFrequency (bins : list byte) (a : AudioAnalyser) : Q * AudioAnalyser :=
  let a' := getFrequencyData bins a in
  (inject_Z (sum_bytes (data a')) / inject_Z (Z.of_nat (length (data a'))), a').

(** ** Lemmas *)

Lemma byte_val_range b : (0 <= byte_val b <= 255)%Z.
Proof.
  unfold byte_val. pose proof (Byte.to_N_bounded b). lia.
Qed.

Lemma sum_bytes_acc l acc :
  fold_left (fun acc b => (acc + byte_val b)%Z) l acc = (acc + sum_bytes l)%Z.
Proof.
  unfold sum_bytes. revert acc. induction l as [|b l IH]; intros acc; simpl; [lia|].
  rewrite (IH (acc + byte_val b)%Z), (IH (byte_val b)). lia.
Qed.

Lemma sum_bytes_cons b l : sum_bytes (b :: l) = (byte_val b + sum_bytes l)%Z.
Proof. unfold sum_bytes at 1. simpl. rewrite sum_bytes_acc. lia. Qed.

Lemma sum_bytes_range l : (0 <= sum_bytes l <= 255 * Z.of_nat (length l))%Z.
Proof.
  induction l as [|b l IH]; [cbv; split; discriminate|].
  rewrite sum_bytes_cons. pose proof (byte_val_range b). simpl length. lia.
Qed.

Lemma getFrequencyData_length bins a :
  (length bins >= length (data a))%nat ->
  data (getFrequencyData bins a) = firstn (length (data a)) bins.
Proof.
  intros H. simpl. rewrite skipn_all2 by lia. apply app_nil_r.
Qed.

Lemma getFrequencyData_length_eq bins a :
  length (data (getFrequencyData bins a)) = length (data a).
Proof.
  simpl. rewrite length_app, length_firstn, length_skipn. lia.
Qed.

Lemma qdiv_bounds (s n : Z) (hi : Q) :
  (0 < n)%Z -> (0 <= s)%Z -> inject_Z s <= hi * inject_Z n ->
  0 <= inject_Z s / inject_Z n <= hi.
Proof.
  intros Hn Hs Hhi. assert (Hn' : 0 < inject_Z n) by (change 0 with (inject_Z 0); rewrite <- Zlt_Qlt; exact Hn).
  split.
  - apply Qle_shift_div_l; [exact Hn'|]. rewrite Qmult_0_l. change 0 with (inject_Z 0). rewrite <- Zle_Qle. exact Hs.
  - apply Qle_shift_div_r; [exact Hn'|]. exact Hhi.
Qed.

(** The mean of a non-empty array of bytes is in [0, 255]. *)
Lemma average_in_byte_range bins a :
  data a <> [] -> 0 <= fst (getAverageFrequency bins a) <= 255.
Proof.
  intros Hne. simpl fst. set (a' := getFrequencyData bins a).
  assert (Hlen : length (data a') = length (data a)) by apply getFrequencyData_length_eq.
  assert (Hpos : (0 < Z.of_nat (length (data a')))%Z)
    by (rewrite Hlen; destruct (data a); [congruence | simpl; lia]).
  pose proof (sum_bytes_range (data a')) as [H0 H1].
  apply qdiv_bounds; [exact Hpos|exact H0|].
  rewrite Zle_Qle, inject_Z_mult in H1. exact H1.
Qed.

(** ** Theorems *)

Lemma sum_bytes_zeros l : Forall (eq x00) l -> sum_bytes l = 0%Z.
Proof.
  induction 1 as [|b l <- _ IH]; [reflexivity|]. rewrite sum_bytes_cons, IH. reflexivity.
Qed.

Lemma getAverageFrequency_fst bins a :
  fst (getAverageFrequency bins a) =
  inject_Z (sum_bytes (data (getFrequencyData bins a)))
  / inject_Z (Z.of_nat (length (data (getFrequencyData bins a)))).
Proof. reflexivity. Qed.

Lemma new_analyser_32_length : length (data (new_analyser 32)) = 16%nat.
Proof. reflexivity. Qed.

(** C12: the analyser of app.js has 16 bins, not 32.  [new
    THREE.AudioAnalyser(sound, 32)] (line 34) sets [fftSize = 32], so its
    array has [frequencyBinCount = 16] entries and [getFrequency()] is the
    mean of the node's first 16 bins, whatever state the analyser is in. *)
Theorem app_analyser_average bins a :
  length (data a) = length (data (new_analyser 32)) -> (16 <= length bins)%nat ->
  fst (getAverageFrequency bins a) == inject_Z (sum_bytes (firstn 16 bins)) / 16.
Proof.
  rewrite new_analyser_32_length. intros Ha Hb. rewrite getAverageFrequency_fst.
  rewrite getFrequencyData_length by lia. rewrite Ha, length_firstn.
  replace (Nat.min 16 (length bins)) with 16%nat by lia. reflexivity.
Qed.

Lemma app_analyser_average_witness :
  length (data (new_analyser 32)) = length (data (new_analyser 32)) /\
  (16 <= length (repeat x10 20))%nat /\
  fst (getAverageFrequency (repeat x10 20) (new_analyser 32))
    == inject_Z (sum_bytes (firstn 16 (repeat x10 20))) / 16.
Proof.
  split; [reflexivity|]. split; [simpl; lia|].
  apply app_analyser_average; [reflexivity | simpl; lia].
Defined.

(** Silence reads as zero: when the node's bins are all zero (a source
    that never played, or a silent track), the average is exactly 0. *)
Lemma average_of_zeros bins a :
  length bins = length (data a) -> Forall (eq x00) bins ->
  fst (getAverageFrequency bins a) == 0.
Proof.
  intros Hl Hz. rewrite getAverageFrequency_fst, getFrequencyData_length by lia.
  rewrite <- Hl, firstn_all, sum_bytes_zeros by exact Hz.
  reflexivity.
Qed.
