(* ===== verification/Scene.v ===== *)
(** * The scene graph of startApp

    [startApp] adds two lights to the host's scene (lines 68-70), builds
    the icosahedron mesh (lines 86 and 94), to which the [Visualizer]
    constructor attaches its [THREE.AudioListener] (lines 28-29), and adds
    the mesh to the scene (line 100).  Objects are values of [Object3D]
    with their children; [add] is [Object3D.add(...objects)] on objects
    that have no parent yet and are not the receiver, which is every call
    of app.js: each object is appended to the children in argument order.

    The mesh's material and rotation are kept beside the graph, in the
    fields of [RenderLoop.App]: they are the only parts of the mesh that
    change after [startApp]. *)

From Stdlib Require Import QArith List Strings.String.
From S2P Require Import Prelude.
Import ListNotations.

Open Scope Q_scope.

(** [new THREE.IcosahedronGeometry(radius, detail)]. *)
Record Geometry := IcosahedronGeometry { radius : Q; detail : nat }.

Inductive Object3D :=
| DirectionalLight (color : string) (intensity : Q)
| AmbientLight (color : string) (intensity : Q)
| AudioListener
| Mesh (geometry : Geometry) (children : list Object3D).

(** [parent.add(o1, o2, ...)] on parentless objects. *)
Definition add (children objs : list Object3D) : list Object3D := children ++ objs.

(** The scene of render/init.js's [useScene()] before [startApp] adds to
    it. *)
Definition host_scene : list Object3D := [].

(** Lines 68-69. *)
Definition dirLight : Object3D := DirectionalLight "#ffffff" 1.
Definition ambientLight : Object3D := AmbientLight "#ffffff" (1 # 2).

(** Line 86. *)
Definition ico_geometry : Geometry := IcosahedronGeometry 2 200.

(** The scene graph [startApp] leaves: both lights, then the mesh with
    the listener as its only child. *)
Definition app_scene : list Object3D :=
  [dirLight; ambientLight; Mesh ico_geometry [AudioListener]].
