(* ===== verification/Visualizer.v ===== *)
(** * The Visualizer class of app.js (lines 22-55)

    A [Visualizer] binds the audio source to one uniform of the mesh's
    material.  Its fields are the uniform's name, the sound and the
    analyser; the material's uniforms object is shared with [startApp]
    (the mesh's [material] is the [material] of line 87), so it is passed
    in and returned rather than copied into the visualizer.  The listener
    of lines 28-29 joins the mesh's children ([visualizer_attach], on the
    scene graph of [Scene]).

    [load] (lines 37-44) starts an asynchronous decode: the request is
    queued and [on_decoded] is the callback of lines 38-43, run later by
    the render loop's decode event.  [update] (lines 50-54) reads the
    average frequency, divides it by 50, writes it into the uniform's box
    (a [TypeError] if the slot is missing) and logs it. *)

From stdpp Require Import base gmap strings.
From Stdlib Require Import QArith Lqa List Strings.Byte.
From S2P Require Import Prelude Frame Uniforms Audio Scene.

Open Scope Q_scope.

Record Visualizer := {
  frequencyUniformName : string;
  sound : Sound;
  analyzer : AudioAnalyser
}.

(** Lines 23-35: [new Visualizer(mesh, frequencyUniformName)]. *)
Definition visualizer_new (name : string) (u : Uniforms) : Visualizer * Uniforms :=
  ({| frequencyUniformName := name; sound := new_sound; analyzer := new_analyser 32 |},
   assign_uniform name (UFloat 0) u).

(** Lines 28-29: [this.listener = new THREE.AudioListener()] and
    [this.mesh.add(this.listener)], on the children of the mesh; the
    constructor's other statements are [visualizer_new]. *)
Definition visualizer_attach (mesh_children : list Object3D) : list Object3D :=
  add mesh_children [AudioListener].

(** Lines 37-38: [this.loader.load(path, callback)] queues a request. *)
Definition visualizer_load (path : string) (pending : list string) : list string :=
  pending ++ [path].

Definition set_sound (v : Visualizer) (s : Sound) : Visualizer :=
  {| frequencyUniformName := frequencyUniformName v; sound := s; analyzer := analyzer v |}.

(** Lines 38-43: the decode callback. *)
Definition on_decoded (b : AudioBuffer) (v : Visualizer) : Visualizer :=
  set_sound v (play (setVolume (1 # 2) (setLoop true (setBuffer b (sound v))))).

(** Lines 46-48: [getFrequency()]. *)
Definition getFrequency (bins : list byte) (v : Visualizer) : Q * Visualizer :=
  let '(f, a') := getAverageFrequency bins (analyzer v) in
  (f, {| frequencyUniformName := frequencyUniformName v; sound := sound v; analyzer := a' |}).

(** Lines 50-54: [update()]; the value logged by [console.log] is
    returned with the new state. *)
Definition visualizer_update (bins : list byte) (v : Visualizer) (u : Uniforms)
  : JSError + (Visualizer * Uniforms * Q) :=
  let '(f, v') := getFrequency bins v in
  let freq := f / 50 in
  match set_uniform_value (frequencyUniformName v') (UFloat freq) u with
  | inl e => inl e
  | inr u' => inr (v', u', freq)
  end.

(** ** Lemmas *)

Lemma getFrequency_fst bins v : fst (getFrequency bins v) = fst (getAverageFrequency bins (analyzer v)).
Proof. reflexivity. Qed.

Lemma getFrequency_name bins v :
  frequencyUniformName (snd (getFrequency bins v)) = frequencyUniformName v.
Proof. reflexivity. Qed.

Lemma getFrequency_sound bins v : sound (snd (getFrequency bins v)) = sound v.
Proof. reflexivity. Qed.

Lemma getFrequency_analyzer bins v :
  analyzer (snd (getFrequency bins v)) = getFrequencyData bins (analyzer v).
Proof. reflexivity. Qed.

(** [update] with the slot present: the uniform holds the average / 50. *)
Lemma visualizer_update_ok bins v u :
  is_Some (u !! frequencyUniformName v) ->
  visualizer_update bins v u =
  inr (snd (getFrequency bins v),
       assign_uniform (frequencyUniformName v)
         (UFloat (fst (getAverageFrequency bins (analyzer v)) / 50)) u,
       fst (getAverageFrequency bins (analyzer v)) / 50).
Proof.
  intros Hs. unfold visualizer_update.
  pose proof (getFrequency_fst bins v) as Hf. pose proof (getFrequency_name bins v) as Hn.
  destruct (getFrequency bins v) as [f v']. cbn [fst snd] in *.
  rewrite Hn, set_uniform_value_ok by done. by rewrite Hf.
Qed.

(** ** Theorems *)

(** C13: the boxed write throws on a missing slot.  [update] on a
    material whose uniforms object has no slot for the visualizer's name
    raises a [TypeError] (JS cannot set [value] on [undefined]); the spec
    (section 7) describes writes to a missing uniform as no-ops. *)
Theorem update_missing_slot_throws bins v u :
  u !! frequencyUniformName v = None ->
  exists msg, visualizer_update bins v u = inl (TypeError msg).
Proof.
  intros Hn. unfold visualizer_update.
  pose proof (getFrequency_name bins v) as Hname.
  destruct (getFrequency bins v) as [f v']. cbn [snd] in Hname.
  unfold set_uniform_value. rewrite Hname, Hn. by eexists.
Qed.

Lemma update_missing_slot_throws_witness :
  (∅ : Uniforms) !! frequencyUniformName (fst (visualizer_new "uAudioFrequency" ∅)) = None /\
  exists msg, visualizer_update (repeat x00 16) (fst (visualizer_new "uAudioFrequency" ∅)) ∅
              = inl (TypeError msg).
Proof.
  split; [reflexivity|]. by apply update_missing_slot_throws.
Defined.

(** C14: binding a uniform replaces its box.  The constructor's
    [uniforms[name] = {value: 0}] on a material that already has the slot
    keeps the number of slots, is idempotent, and resets the value to 0:
    it is not the spec's "register if absent" (section 4.2). *)
Theorem visualizer_new_rebinds name u q :
  u !! name = Some {| value := UFloat q |} ->
  size (snd (visualizer_new name u)) = size u /\
  snd (visualizer_new name (snd (visualizer_new name u))) = snd (visualizer_new name u) /\
  read_float (snd (visualizer_new name u)) name = 0.
Proof.
  intros Hq. cbn [snd visualizer_new]. split; [|split].
  - by apply map_size_insert_Some.
  - apply insert_insert_eq.
  - apply read_float_assign.
Qed.

Lemma visualizer_new_rebinds_witness :
  ({["uAudioFrequency" := {| value := UFloat 3 |}]} : Uniforms) !! "uAudioFrequency"
    = Some {| value := UFloat 3 |} /\
  size (snd (visualizer_new "uAudioFrequency" {["uAudioFrequency" := {| value := UFloat 3 |}]}))
    = size ({["uAudioFrequency" := {| value := UFloat 3 |}]} : Uniforms) /\
  snd (visualizer_new "uAudioFrequency"
         (snd (visualizer_new "uAudioFrequency" {["uAudioFrequency" := {| value := UFloat 3 |}]})))
    = snd (visualizer_new "uAudioFrequency" {["uAudioFrequency" := {| value := UFloat 3 |}]}) /\
  read_float (snd (visualizer_new "uAudioFrequency"
                     {["uAudioFrequency" := {| value := UFloat 3 |}]})) "uAudioFrequency" = 0.
Proof.
  split; [reflexivity|]. apply visualizer_new_rebinds with (q := 3). reflexivity.
Defined.
