(* ===== verification/Rotation64.v ===== *)
(** * The mesh rotation in binary64 arithmetic

    JavaScript numbers are IEEE 754 binary64 with round-to-nearest-even,
    which is what Rocq's primitive [float] computes.  This file models the
    rotation updates of app.js at that width: the initial turn of line 148
    ([ico.rotation.z += 1.0] on an Object3D created at angle 0) and the
    per-tick turns of lines 159-161, in their order (z, then x, then y).
    The literal [0.05] denotes the double nearest to [1/20], which is the
    correctly rounded quotient [1 / 20].

    [RenderLoop] keeps [ico.rotation] as an [Euler64] and turns it with
    [turn64] on every tick.  The angles are the binary64 sums, not the
    exact [0.05 n], [0.05 n] and [1 + 0.05 n] of the spec: after 10 ticks
    the x angle is the double just below 0.5.  How far they drift is
    measured by reading each double as the rational it denotes
    ([float_to_Q]) and checking the distance to the exact angle tick by
    tick, with a boolean check proved sound ([drift_check_sound]) and run
    by [vm_compute] once ([turns_drift]) over the first three minutes at
    60 frames per second. *)

From Stdlib Require Import PrimFloat SpecFloat FloatOps QArith Qabs ZArith Lia.

Local Open Scope float_scope.

(** [ico.rotation] as three doubles. *)
Record Euler64 := Euler64_3 { rx64 : float; ry64 : float; rz64 : float }.

(** The literal [0.05] of lines 159-161. *)
Definition ROTATION_STEP64 : float := 1 / 20.

(** A new mesh has angles 0; line 148 adds [1.0] about z. *)
Definition start_rotation64 : Euler64 := Euler64_3 0 0 (0 + 1).

(** Lines 159-161: [z], then [x], then [y] turn by [0.05]. *)
Definition turn64 (r : Euler64) : Euler64 :=
  let r1 := Euler64_3 (rx64 r) (ry64 r) (rz64 r + ROTATION_STEP64) in
  let r2 := Euler64_3 (rx64 r1 + ROTATION_STEP64) (ry64 r1) (rz64 r1) in
  Euler64_3 (rx64 r2) (ry64 r2 + ROTATION_STEP64) (rz64 r2).

(** [n] ticks. *)
Fixpoint turns (n : nat) (r : Euler64) : Euler64 :=
  match n with
  | O => r
  | S n => turns n (turn64 r)
  end.

(** ** Doubles as rationals *)

(** The rational a finite double denotes, [(-1)^s m 2^e]; infinities
    and NaN, which the rotation never reaches, read as 0. *)
Definition sf_to_Q (f : spec_float) : Q :=
  match f with
  | S754_finite s m e =>
      let q := match e with
               | Z0 => inject_Z (Zpos m)
               | Zpos p => inject_Z (Zpos m * 2 ^ Zpos p)
               | Zneg p => Zpos m # (2 ^ p)
               end in
      if s then (- q)%Q else q
  | _ => 0%Q
  end.

Definition float_to_Q (x : float) : Q := sf_to_Q (Prim2SF x).

(** Three minutes of ticks at 60 frames per second. *)
Definition DRIFT_TICKS : nat := 180 * 60.

(** [2^-33] rad. *)
Definition drift_bound : Q := 1 # 8589934592.

(** The three angles after [n] ticks are within the bound of the exact
    [0.05 n], [0.05 n] and [1 + 0.05 n]. *)
Definition drift_ok (n : Z) (r : Euler64) : bool :=
  Qle_bool (Qabs (float_to_Q (rx64 r) - inject_Z n * (1 # 20))) drift_bound &&
  Qle_bool (Qabs (float_to_Q (ry64 r) - inject_Z n * (1 # 20))) drift_bound &&
  Qle_bool (Qabs (float_to_Q (rz64 r) - (1 + inject_Z n * (1 # 20)))) drift_bound.

(** [drift_ok] at ticks [n], [n + 1], ..., [n + k - 1]. *)
Fixpoint drift_check (k : nat) (n : Z) (r : Euler64) : bool :=
  match k with
  | O => true
  | S k => drift_ok n r && drift_check k (n + 1) (turn64 r)
  end.

(** ** Lemmas *)

Lemma drift_ok_spec n r :
  drift_ok n r = true <->
  (Qabs (float_to_Q (rx64 r) - inject_Z n * (1 # 20)) <= drift_bound /\
   Qabs (float_to_Q (ry64 r) - inject_Z n * (1 # 20)) <= drift_bound /\
   Qabs (float_to_Q (rz64 r) - (1 + inject_Z n * (1 # 20))) <= drift_bound)%Q.
Proof. unfold drift_ok. rewrite !andb_true_iff, !Qle_bool_iff. tauto. Qed.

(** Soundness of the check: it covers every tick it runs over. *)
Lemma drift_check_sound k n r :
  drift_check k n r = true ->
  forall i, (i < k)%nat -> drift_ok (n + Z.of_nat i) (turns i r) = true.
Proof.
  revert n r. induction k as [|k IH]; intros n r H i Hi; [lia|].
  cbn [drift_check] in H. apply andb_true_iff in H as [H1 H2].
  destruct i as [|i]; [rewrite Z.add_0_r; exact H1|].
  replace (n + Z.of_nat (S i))%Z with (n + 1 + Z.of_nat i)%Z by lia.
  exact (IH _ _ H2 i ltac:(lia)).
Qed.

(** The check, run once over the first [DRIFT_TICKS + 1] tick counts. *)
Lemma turns_drift n :
  (n <= DRIFT_TICKS)%nat -> drift_ok (Z.of_nat n) (turns n start_rotation64) = true.
Proof.
  intros Hn.
  assert (H : drift_check (S DRIFT_TICKS) 0 start_rotation64 = true) by (vm_compute; reflexivity).
  exact (drift_check_sound _ _ _ H n ltac:(lia)).
Qed.

(** ** Theorems *)

(** C23: the binary64 drift stays below [2^-33] rad for three minutes.
    For every tick count [n] up to 10800 (three minutes at 60 frames per
    second), the x and y angles are within [2^-33] of the exact [0.05 n]
    and the z angle within [2^-33] of [1 + 0.05 n]: the spec's exact
    angles are off by less than [1.2e-10] rad over that time (the
    largest distance is about [8.2e-11]). *)
Theorem rotation_drift_bound n :
  (n <= DRIFT_TICKS)%nat ->
  (Qabs (float_to_Q (rx64 (turns n start_rotation64)) - inject_Z (Z.of_nat n) * (1 # 20))
     <= drift_bound /\
   Qabs (float_to_Q (ry64 (turns n start_rotation64)) - inject_Z (Z.of_nat n) * (1 # 20))
     <= drift_bound /\
   Qabs (float_to_Q (rz64 (turns n start_rotation64)) - (1 + inject_Z (Z.of_nat n) * (1 # 20)))
     <= drift_bound)%Q.
Proof.
  intros Hn. apply drift_ok_spec, turns_drift, Hn.
Qed.

Lemma rotation_drift_bound_witness :
  (DRIFT_TICKS <= DRIFT_TICKS)%nat /\
  (Qabs (float_to_Q (rx64 (turns DRIFT_TICKS start_rotation64))
         - inject_Z (Z.of_nat DRIFT_TICKS) * (1 # 20)) <= drift_bound /\
   Qabs (float_to_Q (ry64 (turns DRIFT_TICKS start_rotation64))
         - inject_Z (Z.of_nat DRIFT_TICKS) * (1 # 20)) <= drift_bound /\
   Qabs (float_to_Q (rz64 (turns DRIFT_TICKS start_rotation64))
         - (1 + inject_Z (Z.of_nat DRIFT_TICKS) * (1 # 20))) <= drift_bound)%Q.
Proof. split; [lia|]. apply rotation_drift_bound. lia. Defined.
