(* ===== verification/RenderLoop.v ===== *)
(** * startApp, the tick callback and the application's step relation

    The whole application state is [App]: the material's uniforms object
    (shared by [material] and [ico.material]), the mesh rotation, the
    visualizer, the queue of undecoded audio requests, the composer, the
    values logged to the console and the scene graph.  The rotation is
    three doubles ([Rotation64.Euler64]) turned by [Rotation64.turn64],
    binary64 as in JavaScript; the uniforms' numbers are rationals.  [startApp] (lines 59-153) builds
    it; [tick] is the [useTick] callback (lines 155-167); [frame] is one
    display refresh of the host (render/init.js, from the spec): the
    callback, then [composer.render()] on the scene drawn from the
    uniforms and rotation by an abstract [draw] (the mesh's shaders are
    not modelled); [decoded] delivers an [AudioLoader] result.

    [step] is the life cycle as a relation on [Idle | Running app]; the
    invariant [app_inv] holds in every reachable state (rule induction),
    and from it no frame ever fails.  [reachable_preserved] packages the
    rule induction for the other invariants: the load request and the
    sound ([load_inv]), the types of the uniforms ([float_uniforms]) and
    the scene graph ([scene], built once by [startApp]). *)

From stdpp Require Import base gmap strings list.
From Stdlib Require Import QArith Lqa List Strings.Byte Relations.
From Stdlib Require Import PrimFloat Qabs.
From S2P Require Import Prelude Frame Uniforms Audio Scene Visualizer MotionBlur Compositor.
From S2P Require Import Rotation64.

Open Scope Q_scope.

(** [ico.rotation]: three JavaScript numbers, in radians, and the turn of
    lines 159-161, in binary64 ([Rotation64]). *)
Abbreviation Euler := Euler64 (only parsing).
Abbreviation Euler3 := Euler64_3 (only parsing).
Abbreviation turn := turn64 (only parsing).

Record App := {
  material_uniforms : Uniforms;
  rotation : Euler;
  visualizer : Visualizer;
  pending : list string;
  composer : Composer;
  console : list Q;
  scene : list Object3D
}.

(** Line 65: declared and never read. *)
Definition ROTATION_SPEED : float := (1 / 50)%float.

Definition TRACK : string := "./sounds/song.mp3".

(** Lines 59-153, on a viewport of [w x h] texels. *)
Definition startApp (w h : nat) : JSError + App :=
  let sc0 := add host_scene [dirLight; ambientLight] in              (* 60, 68-70 *)
  let u0 := assign_uniform "uTime" (UFloat 0) ∅ in                 (* 87-92 *)
  let ico_children := ([] : list Object3D) in                       (* 94 *)
  let '(vis, u1) := visualizer_new "uAudioFrequency" u0 in          (* 96 *)
  let ico_children := visualizer_attach ico_children in             (* 96: 28-29 *)
  let pend := visualizer_load TRACK [] in                           (* 99 *)
  let sc1 := add sc0 [Mesh ico_geometry ico_children] in           (* 86, 100 *)
  let rot := start_rotation64 in                                    (* 148 *)
  match setup_postprocessing w h (host_composer w h) with          (* 124-153 *)
  | inl e => inl e
  | inr c => inr {| material_uniforms := u1; rotation := rot; visualizer := vis;
                    pending := pend; composer := c; console := []; scene := sc1 |}
  end.

(** Lines 155-167: the tick callback. *)
Definition tick (timestamp : Q) (bins : list byte) (a : App) : JSError + App :=
  match visualizer_update bins (visualizer a) (material_uniforms a) with
  | inl e => inl e
  | inr (v', u', logged) =>
      let time := timestamp / 1000 in
      match set_uniform_value "uTime" (UFloat time) u' with
      | inl e => inl e
      | inr u'' =>
          inr {| material_uniforms := u''; rotation := turn (rotation a); visualizer := v';
                 pending := pending a; composer := composer a;
                 console := console a ++ [logged]; scene := scene a |}
      end
  end.

Definition set_composer (a : App) (c : Composer) : App :=
  {| material_uniforms := material_uniforms a; rotation := rotation a;
     visualizer := visualizer a; pending := pending a; composer := c;
     console := console a; scene := scene a |}.

(** The decode callback for a request; a failed decode changes nothing
    but the queue. *)
Definition decoded (rest : list string) (res : option AudioBuffer) (a : App) : App :=
  {| material_uniforms := material_uniforms a; rotation := rotation a;
     visualizer := match res with
                   | Some b => on_decoded b (visualizer a)
                   | None => visualizer a
                   end;
     pending := rest; composer := composer a; console := console a; scene := scene a |}.

Section Host.
(** The scene the renderer draws from the material's uniforms and the
    mesh rotation. *)
Context (draw : Uniforms -> Euler -> Texture).

(** One display refresh: the tick callback, then [composer.render()]. *)
Definition frame (timestamp : Q) (bins : list byte) (a : App) : JSError + App :=
  match tick timestamp bins a with
  | inl e => inl e
  | inr a' =>
      match composer_render (draw (material_uniforms a') (rotation a')) (composer a') with
      | None => inl (TypeError "Cannot read properties of undefined (reading 'texture')")
      | Some c => inr (set_composer a' c)
      end
  end.

Fixpoint run_frames (inputs : list (Q * list byte)) (a : App) : JSError + App :=
  match inputs with
  | [] => inr a
  | (ts, bins) :: rest =>
      match frame ts bins a with
      | inl e => inl e
      | inr a' => run_frames rest a'
      end
  end.

(** Successive refreshes, with what each one put on the screen. *)
Fixpoint run_frames_trace (inputs : list (Q * list byte)) (a : App)
  : JSError + (list (option Texture) * App) :=
  match inputs with
  | [] => inr ([], a)
  | (ts, bins) :: rest =>
      match frame ts bins a with
      | inl e => inl e
      | inr a' =>
          match run_frames_trace rest a' with
          | inl e => inl e
          | inr (outs, a'') => inr (screen (composer a') :: outs, a'')
          end
      end
  end.

Inductive Phase := Idle | Running (a : App).

(** The life cycle.  A frame's bins come from the WebAudio node of the
    analyser, which has [fftSize / 2 = 16] of them. *)
Inductive step : Phase -> Phase -> Prop :=
| step_start w h a :
    startApp w h = inr a -> step Idle (Running a)
| step_frame a a' ts bins :
    length bins = 16%nat -> frame ts bins a = inr a' -> step (Running a) (Running a')
| step_decoded a pre path post res :
    pending a = pre ++ path :: post ->
    step (Running a) (Running (decoded (pre ++ post) res a)).

Definition reachable (ph : Phase) : Prop := clos_refl_trans_1n _ step Idle ph.
End Host.

(** ** The invariant *)

(** What [load]'s callback guarantees of the sound: once it plays, it
    loops at volume 0.5 on a decoded buffer. *)
Definition sound_ok (s : Sound) : Prop :=
  hasPlaybackControl s = true /\ autoplay s = false /\
  (isPlaying s = true -> loop s = true /\ volume s == 1 # 2 /\ buffer s <> None).

Definition app_inv (a : App) : Prop :=
  is_Some (material_uniforms a !! "uTime") /\
  is_Some (material_uniforms a !! "uAudioFrequency") /\
  frequencyUniformName (visualizer a) = "uAudioFrequency" /\
  length (data (analyzer (visualizer a))) = 16%nat /\
  sound_ok (sound (visualizer a)) /\
  composer_ok MOTION_BLUR_AMOUNT UnsignedByteType (composer a).

(** What the load request guarantees of the audio: while the track's
    request is queued, nothing is decoded and nothing plays. *)
Definition load_inv (a : App) : Prop :=
  (pending a = [TRACK] /\ isPlaying (sound (visualizer a)) = false /\
   buffer (sound (visualizer a)) = None) \/ pending a = [].

(** The two uniforms the mesh's shaders read hold numbers (GLSL
    [float]s), never a texture or nothing. *)
Definition float_uniforms (a : App) : Prop :=
  (exists t, material_uniforms a !! "uTime" = Some {| value := UFloat t |}) /\
  (exists f, material_uniforms a !! "uAudioFrequency" = Some {| value := UFloat f |}).

(** No request left and nothing playing. *)
Definition silent_phase (ph : Phase) : Prop :=
  match ph with
  | Idle => False
  | Running a => pending a = [] /\ isPlaying (sound (visualizer a)) = false
  end.

(** ** The abstract specification of a frame

    What the spec (sections 4.2 and 4.4) says a frame draws: the uniforms
    hold the elapsed seconds and the mean of the analyser's 16 bins over
    50, and the mesh has turned once more. *)
Definition spec_uniforms (ts : Q) (bins : list byte) : Uniforms :=
  assign_uniform "uTime" (UFloat (ts / 1000))
    (assign_uniform "uAudioFrequency"
       (UFloat (inject_Z (sum_bytes (firstn 16 bins)) / inject_Z (Z.of_nat 16) / 50)) ∅).

Fixpoint spec_scenes (draw : Uniforms -> Euler -> Texture) (rot : Euler)
    (inputs : list (Q * list byte)) : list Texture :=
  match inputs with
  | [] => []
  | (ts, bins) :: rest => draw (spec_uniforms ts bins) (turn rot) :: spec_scenes draw (turn rot) rest
  end.

(** The uniforms object has no slot but the two of the shaders. *)
Definition only_two_slots (u : Uniforms) : Prop :=
  forall k, k <> "uTime" -> k <> "uAudioFrequency" -> u !! k = None.

(** ** Lemmas on the operations *)

Lemma startApp_spec w h :
  exists a, startApp w h = inr a /\ app_inv a /\ rotation a = start_rotation64 /\
    pending a = [TRACK] /\ composer_history (composer a) = tconst vzero /\
    sound (visualizer a) = new_sound /\
    material_uniforms a =
      assign_uniform "uAudioFrequency" (UFloat 0) (assign_uniform "uTime" (UFloat 0) ∅).
Proof.
  destruct (setup_postprocessing_spec w h) as (c & Hc & Hok & Hh).
  unfold startApp. cbn -[setup_postprocessing]. rewrite Hc.
  eexists. split; [reflexivity|]. split; [|done].
  split; [by eexists|]. split; [by eexists|]. split; [done|]. split; [done|].
  split; [split; [done|split; [done|discriminate]]|]. exact Hok.
Qed.

Definition tick_result (timestamp : Q) (bins : list byte) (a : App) : App :=
  let f := fst (getAverageFrequency bins (analyzer (visualizer a))) / 50 in
  {| material_uniforms :=
       assign_uniform "uTime" (UFloat (timestamp / 1000))
         (assign_uniform "uAudioFrequency" (UFloat f) (material_uniforms a));
     rotation := turn (rotation a);
     visualizer := snd (getFrequency bins (visualizer a));
     pending := pending a; composer := composer a; console := console a ++ [f];
     scene := scene a |}.

(** With both slots present, the tick callback cannot throw. *)
Lemma tick_ok timestamp bins a :
  app_inv a -> tick timestamp bins a = inr (tick_result timestamp bins a).
Proof.
  intros (Ht & Hf & Hn & _). unfold tick.
  rewrite visualizer_update_ok by (rewrite Hn; done). rewrite Hn.
  rewrite set_uniform_value_ok by (apply assign_uniform_slot; done). reflexivity.
Qed.

Lemma tick_result_inv timestamp bins a : app_inv a -> app_inv (tick_result timestamp bins a).
Proof.
  intros (Ht & Hf & Hn & Hl & Hs & Hc).
  unfold app_inv, tick_result. cbn [material_uniforms rotation visualizer composer].
  rewrite getFrequency_name, getFrequency_analyzer, getFrequencyData_length_eq,
    getFrequency_sound.
  split; [auto with viz|]. split; [auto with viz|].
  repeat (split; [done|]). done.
Qed.

(** One frame from a state of the invariant: the callback's result, then
    the composer's refinement lemma on the scene drawn from it. *)
Lemma frame_spec draw ts bins a :
  app_inv a ->
  exists c' o, frame draw ts bins a = inr (set_composer (tick_result ts bins a) c') /\
    screen c' = Some o /\
    o ≡ blur_output MOTION_BLUR_AMOUNT (composer_history (composer a))
          (draw (material_uniforms (tick_result ts bins a)) (turn (rotation a))) /\
    composer_history c' ≡ blur_step MOTION_BLUR_AMOUNT UnsignedByteType
          (composer_history (composer a))
          (draw (material_uniforms (tick_result ts bins a)) (turn (rotation a))) /\
    app_inv (set_composer (tick_result ts bins a) c').
Proof.
  intros Hinv. pose proof (tick_result_inv ts bins a Hinv) as Hinv'.
  destruct Hinv' as (H1 & H2 & H3 & H4 & H5 & Hc).
  destruct (composer_render_spec _ _ _
              (draw (material_uniforms (tick_result ts bins a)) (turn (rotation a))) Hc)
    as (c' & Hr & (o & Ho & Hout) & Hh & Hok).
  exists c', o. unfold frame. rewrite tick_ok by done. cbn [rotation tick_result] in *.
  rewrite Hr. repeat (split; [done|]). exact Hok.
Qed.

Lemma on_decoded_sound b v :
  sound_ok (sound v) ->
  sound_ok (sound (on_decoded b v)) /\ isPlaying (sound (on_decoded b v)) = true /\
  buffer (sound (on_decoded b v)) = Some b.
Proof.
  unfold on_decoded, set_sound. cbn [sound].
  destruct (sound v) as [buf st lp vol pl hpc ap]. unfold sound_ok. cbn.
  intros (-> & -> & _). destruct pl; cbn; repeat split; try done; qsolve.
Qed.

Lemma decoded_inv rest res a : app_inv a -> app_inv (decoded rest res a).
Proof.
  intros (H1 & H2 & H3 & H4 & H5 & H6). unfold app_inv, decoded. cbn.
  destruct res as [b|]; [|done].
  destruct (on_decoded_sound b (visualizer a) H5) as (Hs & _).
  by repeat (split; [done|]).
Qed.

Definition phase_inv (ph : Phase) : Prop :=
  match ph with Idle => True | Running a => app_inv a end.

Lemma step_inv draw ph ph' : step draw ph ph' -> phase_inv ph -> phase_inv ph'.
Proof.
  intros Hs. destruct Hs as [w h a Ha | a a' ts bins _ Hf | a pre path post res _]; cbn.
  - intros _. destruct (startApp_spec w h) as (a0 & Ha0 & Hinv & _).
    rewrite Ha in Ha0. by injection Ha0 as ->.
  - intros Hinv. destruct (frame_spec draw ts bins a Hinv) as (c' & o & Hf' & _ & _ & _ & Hinv').
    rewrite Hf in Hf'. by injection Hf' as ->.
  - apply decoded_inv.
Qed.

Lemma reachable_phase_inv draw ph : reachable draw ph -> phase_inv ph.
Proof.
  unfold reachable. intros H. cut (phase_inv Idle); [|done].
  induction H as [|x y z Hxy _ IH]; [done|]. intros Hx. apply IH. by eapply step_inv.
Qed.

Lemma reachable_step draw ph ph' : reachable draw ph -> step draw ph ph' -> reachable draw ph'.
Proof.
  unfold reachable. intros H Hs. apply clos_rt_rt1n. eapply rt_trans.
  - apply clos_rt1n_rt. exact H.
  - by apply rt_step.
Qed.

Lemma reachable_inv draw a : reachable draw (Running a) -> app_inv a.
Proof. intros H. exact (reachable_phase_inv draw _ H). Qed.

Lemma frame_result draw ts bins a a' :
  app_inv a -> frame draw ts bins a = inr a' ->
  exists c', a' = set_composer (tick_result ts bins a) c'.
Proof.
  intros Hinv Hf. destruct (frame_spec draw ts bins a Hinv) as (c' & o & Hf' & _).
  rewrite Hf in Hf'. injection Hf' as ->. by exists c'.
Qed.

(** Rule induction on [step] for a property of the running application:
    it holds after [startApp], is kept by a frame and by a decode event. *)
Lemma reachable_ind draw (P : App -> Prop) :
  (forall w h a, startApp w h = inr a -> P a) ->
  (forall a a' ts bins, app_inv a -> P a -> frame draw ts bins a = inr a' -> P a') ->
  (forall a pre path post res, app_inv a -> P a -> pending a = pre ++ path :: post ->
     P (decoded (pre ++ post) res a)) ->
  forall a, reachable draw (Running a) -> P a.
Proof.
  intros Hs Hf Hd a R.
  set (Q := fun ph => match ph with Idle => True | Running a => P a end).
  change (Q (Running a)). unfold reachable in R.
  assert (HI : phase_inv Idle /\ Q Idle) by done. revert HI.
  induction R as [|x y z Hxy _ IH]; [by intros []|]. intros [Hi Hq].
  apply IH. split; [by eapply step_inv|].
  destruct Hxy as [w h a' Ha | a' a'' ts bins _ Hfr | a' pre path post res Hp]; cbn in *.
  - by eapply Hs.
  - by apply (Hf a' a'' ts bins).
  - by apply (Hd a' pre path post res).
Qed.

(** The same, for a property a frame keeps whatever the new composer. *)
Lemma reachable_preserved draw (P : App -> Prop) :
  (forall w h a, startApp w h = inr a -> P a) ->
  (forall ts bins a c', app_inv a -> P a -> P (set_composer (tick_result ts bins a) c')) ->
  (forall a pre path post res, app_inv a -> P a -> pending a = pre ++ path :: post ->
     P (decoded (pre ++ post) res a)) ->
  forall a, reachable draw (Running a) -> P a.
Proof.
  intros Hs Hf Hd. apply (reachable_ind draw P Hs); [|exact Hd].
  intros a a' ts bins Hi Ha Hfr.
  destruct (frame_result draw ts bins a a' Hi Hfr) as (c' & ->). by apply Hf.
Qed.

Lemma only_two_slots_empty : only_two_slots ∅.
Proof. intros k _ _. apply lookup_empty. Qed.

Lemma only_two_slots_assign k v u :
  k = "uTime" \/ k = "uAudioFrequency" -> only_two_slots u -> only_two_slots (assign_uniform k v u).
Proof.
  intros Hk Hu k' H1 H2. rewrite assign_uniform_lookup_ne by (intros ->; tauto). by apply Hu.
Qed.

Lemma spec_uniforms_two_slots ts bins : only_two_slots (spec_uniforms ts bins).
Proof.
  apply only_two_slots_assign; [by left|].
  apply only_two_slots_assign; [by right|]. apply only_two_slots_empty.
Qed.

(** On a uniforms object with only the two slots and the analyser of
    app.js, the callback leaves exactly the uniforms of the spec. *)
Lemma tick_result_uniforms ts bins a :
  only_two_slots (material_uniforms a) -> length (data (analyzer (visualizer a))) = 16%nat ->
  length bins = 16%nat -> material_uniforms (tick_result ts bins a) = spec_uniforms ts bins.
Proof.
  intros Hu Hl Hb. cbn [material_uniforms tick_result]. unfold spec_uniforms.
  rewrite getAverageFrequency_fst, getFrequencyData_length_eq, getFrequencyData_length by lia.
  rewrite Hl. apply map_eq. intros k. unfold assign_uniform.
  destruct (decide (k = "uTime")) as [->|H1]; [by rewrite !lookup_insert_eq|].
  rewrite !lookup_insert_ne by congruence.
  destruct (decide (k = "uAudioFrequency")) as [->|H2]; [by rewrite !lookup_insert_eq|].
  rewrite !lookup_insert_ne by congruence. rewrite lookup_empty. by apply Hu.
Qed.

(** Frames from a state of the invariant whose history is [H] display
    the outputs of the contract on the scenes of the spec. *)
Lemma run_frames_trace_refines draw inputs a H :
  app_inv a -> only_two_slots (material_uniforms a) -> composer_history (composer a) ≡ H ->
  Forall (fun i => length (snd i) = 16%nat) inputs ->
  exists outs a', run_frames_trace draw inputs a = inr (outs, a') /\
    Forall2 (fun o s => exists t, o = Some t /\ t ≡ s) outs
      (run_outputs MOTION_BLUR_AMOUNT UnsignedByteType H (spec_scenes draw (rotation a) inputs)).
Proof.
  revert a H. induction inputs as [|[ts bins] rest IH]; intros a H Hinv Hu HH Hl;
    cbn [run_frames_trace spec_scenes run_outputs].
  - by exists [], a.
  - inversion Hl as [|? ? Hb Hrest]; subst. cbn [snd] in Hb.
    pose proof Hinv as (_ & _ & _ & Hlen & _).
    pose proof (tick_result_uniforms ts bins a Hu Hlen Hb) as Hsu.
    destruct (frame_spec draw ts bins a Hinv) as (c' & o & -> & Ho & Hout & Hh & Hinv').
    rewrite Hsu, HH in Hout, Hh.
    destruct (IH (set_composer (tick_result ts bins a) c')
                (blur_step MOTION_BLUR_AMOUNT UnsignedByteType H
                   (draw (spec_uniforms ts bins) (turn (rotation a)))) Hinv')
      as (outs & a'' & Hrun & Hall); [| exact Hh | exact Hrest |].
    + cbn [material_uniforms set_composer]. rewrite Hsu. apply spec_uniforms_two_slots.
    + exists (Some o :: outs), a''. rewrite Hrun. split; [cbn [composer set_composer]; by rewrite Ho|].
      constructor; [by exists o|]. exact Hall.
Qed.

Lemma pending_track_split pre path post :
  [TRACK] = pre ++ path :: post -> pre = [] /\ post = [].
Proof.
  intros H. destruct pre as [|x pre]; cbn in H; injection H as _ H.
  - by subst.
  - destruct pre; discriminate.
Qed.

Lemma load_inv_reachable draw a : reachable draw (Running a) -> load_inv a.
Proof.
  apply reachable_preserved.
  - intros w h a0 Ha. destruct (startApp_spec w h) as (a1 & Ha1 & _ & _ & Hp & _ & Hs & _).
    rewrite Ha in Ha1. injection Ha1 as <-. left. by rewrite Hp, Hs.
  - intros ts bins a0 c' _ H. unfold load_inv in *.
    cbn [pending visualizer set_composer tick_result]. by rewrite getFrequency_sound.
  - intros a0 pre path post res _ [(Hp & _ & _)|Hp] Hq; rewrite Hp in Hq.
    + apply pending_track_split in Hq as [-> ->]. by right.
    + destruct pre; discriminate.
Qed.

Lemma startApp_scene w h a : startApp w h = inr a -> scene a = app_scene.
Proof.
  destruct (setup_postprocessing_spec w h) as (c & Hc & _).
  unfold startApp. cbn -[setup_postprocessing]. rewrite Hc. intros H. by injection H as <-.
Qed.

(** Frames keep a silent state with no request silent; no decode event
    can come. *)
Lemma silent_phase_steps draw ph ph' :
  clos_refl_trans_1n _ (step draw) ph ph' -> reachable draw ph -> silent_phase ph ->
  silent_phase ph'.
Proof.
  induction 1 as [|x y z Hxy _ IH]; intros R Hx; [exact Hx|].
  apply IH; [by eapply reachable_step|].
  destruct Hxy as [w h a' _ | a' a'' ts bins _ Hfr | a' pre path post res Hp]; cbn in *.
  - done.
  - destruct (frame_result draw ts bins a' a'' (reachable_inv draw a' R) Hfr) as (c' & ->).
    cbn [pending visualizer set_composer tick_result]. by rewrite getFrequency_sound.
  - destruct Hx as [Hx _]. rewrite Hx in Hp. destruct pre; discriminate.
Qed.

(** Frames from a state of the invariant never fail; the mesh turns
    once per frame. *)
Lemma run_frames_spec draw inputs a :
  app_inv a ->
  exists a', run_frames draw inputs a = inr a' /\ app_inv a' /\
    rotation a' = turns (length inputs) (rotation a).
Proof.
  revert a. induction inputs as [|[ts bins] rest IH]; intros a Hinv; cbn [run_frames length].
  - by exists a.
  - destruct (frame_spec draw ts bins a Hinv) as (c' & o & -> & _ & _ & _ & Hinv').
    destruct (IH _ Hinv') as (a'' & Hrun & Hinv'' & Hrot).
    exists a''. split; [done|]. split; [done|]. exact Hrot.
Qed.

(** ** Theorems about the running application *)

(** C8: every reachable state satisfies the invariant: both uniform slots
    exist, the visualizer writes [uAudioFrequency], the analyser has 16
    bins, a playing sound loops at volume 0.5 on a decoded buffer, and
    the composer is well formed: its passes are the render, blend (at
    0.725), save and copy passes of [setupPostprocessing], its read and
    write buffers are its two half-float targets, and the save target
    is an 8-bit target. *)
Theorem reachable_app_inv draw a : reachable draw (Running a) -> app_inv a.
Proof. intros H. exact (reachable_phase_inv draw _ H). Qed.

(** The scene of an empty screen, for the witnesses. *)
Definition blank_draw : Uniforms -> Euler -> Texture := fun _ _ => tconst vzero.

Lemma reachable_start w h : exists a, startApp w h = inr a /\ reachable blank_draw (Running a).
Proof.
  destruct (startApp_spec w h) as (a & Ha & _). exists a. split; [done|].
  eapply Relation_Operators.rt1n_trans; [eapply step_start; exact Ha | apply rt1n_refl].
Qed.

Lemma reachable_app_inv_witness : exists a, reachable blank_draw (Running a) /\ app_inv a.
Proof.
  destruct (reachable_start 2 2) as (a & _ & R). exists a.
  split; [exact R | exact (reachable_app_inv blank_draw a R)].
Defined.

(** C9: the render loop never throws.  From every reachable state, a
    display refresh with the analyser's 16 bins runs the tick callback
    and the composer without a [TypeError] or a missing render target,
    and reaches a reachable state. *)
Theorem frame_progress draw a ts bins :
  reachable draw (Running a) -> length bins = 16%nat ->
  exists a', frame draw ts bins a = inr a' /\ reachable draw (Running a').
Proof.
  intros R Hl. destruct (frame_spec draw ts bins a (reachable_inv draw a R))
    as (c' & o & Hf & _).
  eexists. split; [exact Hf|]. eapply reachable_step; [exact R|]. by eapply step_frame.
Qed.

Lemma frame_progress_witness :
  exists a, reachable blank_draw (Running a) /\ length (repeat x00 16) = 16%nat /\
    exists a', frame blank_draw 0 (repeat x00 16) a = inr a' /\ reachable blank_draw (Running a').
Proof.
  destruct (reachable_start 2 2) as (a & _ & R). exists a.
  split; [exact R|]. split; [reflexivity|]. exact (frame_progress blank_draw a 0 (repeat x00 16) R eq_refl).
Defined.

(** C7: what one frame writes.  After a display refresh from a reachable
    state, the audio uniform holds the analyser's average divided by 50,
    [uTime] holds the timestamp divided by 1000, the same audio value was
    logged, and the mesh turned once by [turn]. *)
Theorem frame_uniforms draw ts bins a a' :
  reachable draw (Running a) -> frame draw ts bins a = inr a' ->
  read_float (material_uniforms a') "uAudioFrequency"
    == fst (getAverageFrequency bins (analyzer (visualizer a))) / 50 /\
  read_float (material_uniforms a') "uTime" == ts / 1000 /\
  console a' = console a ++ [fst (getAverageFrequency bins (analyzer (visualizer a))) / 50] /\
  rotation a' = turn (rotation a).
Proof.
  intros R Hf. destruct (frame_result draw ts bins a a' (reachable_inv draw a R) Hf) as (c' & ->).
  cbn. rewrite read_float_assign_ne, !read_float_assign by done. done.
Qed.

Lemma frame_uniforms_witness :
  exists a a', reachable blank_draw (Running a) /\
    frame blank_draw 2000 (repeat x10 16) a = inr a' /\
    read_float (material_uniforms a') "uAudioFrequency"
      == fst (getAverageFrequency (repeat x10 16) (analyzer (visualizer a))) / 50 /\
    read_float (material_uniforms a') "uTime" == 2000 / 1000 /\
    console a' = console a ++ [fst (getAverageFrequency (repeat x10 16) (analyzer (visualizer a))) / 50] /\
    rotation a' = turn (rotation a).
Proof.
  destruct (reachable_start 2 2) as (a & _ & R).
  destruct (frame_spec blank_draw 2000 (repeat x10 16) a (reachable_inv _ _ R)) as (c' & o & Hf & _).
  exists a, (set_composer (tick_result 2000 (repeat x10 16) a) c').
  split; [exact R|]. split; [exact Hf|].
  exact (frame_uniforms blank_draw 2000 (repeat x10 16) a _ R Hf).
Defined.

(** C6: what one frame shows.  The scene is drawn from the uniforms and
    the rotation this tick's callback has just written (sampling and
    uniform writes precede rendering), the screen shows its blend with
    the previous history at 0.725, and the history becomes that blend
    stored in 8 bits. *)
Theorem frame_display draw ts bins a a' :
  reachable draw (Running a) -> frame draw ts bins a = inr a' ->
  exists o, screen (composer a') = Some o /\
    o ≡ blur_output MOTION_BLUR_AMOUNT (composer_history (composer a))
          (draw (material_uniforms a') (rotation a')) /\
    composer_history (composer a') ≡ blur_step MOTION_BLUR_AMOUNT UnsignedByteType
          (composer_history (composer a)) (draw (material_uniforms a') (rotation a')).
Proof.
  intros R Hf. destruct (frame_spec draw ts bins a (reachable_inv draw a R))
    as (c' & o & Hf' & Ho & Hout & Hh & _).
  rewrite Hf in Hf'. injection Hf' as ->. by exists o.
Qed.

Lemma frame_display_witness :
  exists a a', reachable blank_draw (Running a) /\
    frame blank_draw 0 (repeat x00 16) a = inr a' /\
    exists o, screen (composer a') = Some o /\
      o ≡ blur_output MOTION_BLUR_AMOUNT (composer_history (composer a))
            (blank_draw (material_uniforms a') (rotation a')) /\
      composer_history (composer a') ≡ blur_step MOTION_BLUR_AMOUNT UnsignedByteType
            (composer_history (composer a)) (blank_draw (material_uniforms a') (rotation a')).
Proof.
  destruct (reachable_start 2 2) as (a & _ & R).
  destruct (frame_spec blank_draw 0 (repeat x00 16) a (reachable_inv _ _ R)) as (c' & o & Hf & _).
  exists a, (set_composer (tick_result 0 (repeat x00 16) a) c').
  split; [exact R|]. split; [exact Hf|].
  exact (frame_display blank_draw 0 (repeat x00 16) a _ R Hf).
Defined.

(** C10: rotation accumulates per tick, not per second.  From [startApp]
    (which turns the mesh 1 rad about z, line 148), any sequence of [n]
    frames succeeds, whatever the timestamps, and leaves the rotation at
    [n] binary64 turns of [(0, 0, 1)]; for [n] up to three minutes of
    frames at 60 per second, the angles are within [2^-33] rad of the
    exact [0.05 n], [0.05 n] and [1 + 0.05 n]. *)
Theorem rotation_after_frames draw w h inputs :
  exists a a', startApp w h = inr a /\ run_frames draw inputs a = inr a' /\
    rotation a' = turns (length inputs) start_rotation64 /\
    ((length inputs <= DRIFT_TICKS)%nat ->
     Qabs (float_to_Q (rx64 (rotation a')) - inject_Z (Z.of_nat (length inputs)) * (1 # 20))
       <= drift_bound /\
     Qabs (float_to_Q (ry64 (rotation a')) - inject_Z (Z.of_nat (length inputs)) * (1 # 20))
       <= drift_bound /\
     Qabs (float_to_Q (rz64 (rotation a')) - (1 + inject_Z (Z.of_nat (length inputs)) * (1 # 20)))
       <= drift_bound).
Proof.
  destruct (startApp_spec w h) as (a & Ha & Hinv & Hrot & _).
  destruct (run_frames_spec draw inputs a Hinv) as (a' & Hrun & _ & Hr).
  rewrite Hrot in Hr. exists a, a'. split; [done|]. split; [done|]. split; [done|].
  intros Hn. rewrite Hr. apply drift_ok_spec, turns_drift, Hn.
Qed.

Lemma rotation_after_frames_witness :
  exists a a', startApp 2 2 = inr a /\
    run_frames blank_draw [(0, repeat x00 16); (16, repeat x00 16)] a = inr a' /\
    rotation a' = turns 2 start_rotation64.
Proof.
  destruct (rotation_after_frames blank_draw 2 2 [(0, repeat x00 16); (16, repeat x00 16)])
    as (a & a' & Ha & Hrun & Hrot & _).
  exists a, a'. split; [exact Ha|]. split; [exact Hrun|]. exact Hrot.
Defined.

(** Frames on silent bins keep the audio uniform at 0. *)
Lemma run_frames_silent draw inputs a a' :
  app_inv a -> read_float (material_uniforms a) "uAudioFrequency" == 0 ->
  Forall (fun i => snd i = repeat x00 16) inputs -> run_frames draw inputs a = inr a' ->
  read_float (material_uniforms a') "uAudioFrequency" == 0.
Proof.
  revert a. induction inputs as [|[ts bins] rest IH]; intros a Hinv H0 Hs Hrun; cbn [run_frames] in Hrun.
  - by injection Hrun as <-.
  - inversion Hs as [|? ? Hb Hrest]; subst. change (bins = repeat x00 16) in Hb. subst bins.
    destruct (frame_spec draw ts (repeat x00 16) a Hinv) as (c' & o & Hf & _ & _ & _ & Hinv').
    rewrite Hf in Hrun. apply (IH _ Hinv'); [|done|done].
    cbn [material_uniforms set_composer tick_result]. rewrite read_float_assign_ne, read_float_assign by done.
    destruct Hinv as (_ & _ & _ & Hl & _).
    rewrite average_of_zeros; [reflexivity| by rewrite Hl, repeat_length |].
    apply Forall_forall. intros x Hx. by apply repeat_spec in Hx.
Qed.

(** C11: a silent track leaves the shader undeformed.  From [startApp],
    when every frame's bins are all zero (nothing decoded yet, a failed
    decode, or a silent track), the audio uniform is 0 before the first
    frame and after every frame. *)
Theorem silent_uniform_zero draw w h inputs a a' :
  startApp w h = inr a -> Forall (fun i => snd i = repeat x00 16) inputs ->
  run_frames draw inputs a = inr a' ->
  read_float (material_uniforms a') "uAudioFrequency" == 0.
Proof.
  intros Ha Hs Hrun. destruct (startApp_spec w h) as (a0 & Ha0 & Hinv & _ & _ & _ & _ & Hu).
  rewrite Ha in Ha0. injection Ha0 as <-.
  apply (run_frames_silent draw inputs a a' Hinv); [|done|done].
  by rewrite Hu, read_float_assign.
Qed.

Lemma silent_uniform_zero_witness :
  exists a a', startApp 2 2 = inr a /\
    Forall (fun i => snd i = repeat x00 16) [(0, repeat x00 16); (16, repeat x00 16)] /\
    run_frames blank_draw [(0, repeat x00 16); (16, repeat x00 16)] a = inr a' /\
    read_float (material_uniforms a') "uAudioFrequency" == 0.
Proof.
  destruct (startApp_spec 2 2) as (a & Ha & Hinv & _).
  destruct (run_frames_spec blank_draw [(0, repeat x00 16); (16, repeat x00 16)] a Hinv)
    as (a' & Hrun & _).
  exists a, a'. split; [exact Ha|].
  assert (Hs : Forall (fun i => snd i = repeat x00 16)
                 [(0, repeat x00 16); (16, repeat x00 16)]) by (repeat constructor).
  split; [exact Hs|]. split; [exact Hrun|].
  exact (silent_uniform_zero blank_draw 2 2 _ a a' Ha Hs Hrun).
Defined.

(** C15: a successful decode starts looping playback.  In a reachable
    state, delivering a decoded buffer for a queued request removes the
    request and leaves the sound playing that buffer, looping, at volume
    0.5, in a reachable state. *)
Theorem decode_success_plays draw a pre path post b :
  reachable draw (Running a) -> pending a = pre ++ path :: post ->
  reachable draw (Running (decoded (pre ++ post) (Some b) a)) /\
  isPlaying (sound (visualizer (decoded (pre ++ post) (Some b) a))) = true /\
  loop (sound (visualizer (decoded (pre ++ post) (Some b) a))) = true /\
  volume (sound (visualizer (decoded (pre ++ post) (Some b) a))) == 1 # 2 /\
  buffer (sound (visualizer (decoded (pre ++ post) (Some b) a))) = Some b /\
  pending (decoded (pre ++ post) (Some b) a) = pre ++ post.
Proof.
  intros R Hp. destruct (reachable_inv draw a R) as (_ & _ & _ & _ & Hs & _).
  destruct (on_decoded_sound b (visualizer a) Hs) as ((_ & _ & Hplay) & Hon & Hb).
  cbn. destruct (Hplay Hon) as (Hl & Hv & _).
  split; [eapply reachable_step; [exact R | eapply step_decoded; exact Hp]|]. done.
Qed.

Lemma decode_success_plays_witness :
  exists a, reachable blank_draw (Running a) /\ pending a = [] ++ TRACK :: [] /\
    reachable blank_draw (Running (decoded ([] ++ []) (Some {| buffer_id := 7 |}) a)) /\
    isPlaying (sound (visualizer (decoded ([] ++ []) (Some {| buffer_id := 7 |}) a))) = true /\
    loop (sound (visualizer (decoded ([] ++ []) (Some {| buffer_id := 7 |}) a))) = true /\
    volume (sound (visualizer (decoded ([] ++ []) (Some {| buffer_id := 7 |}) a))) == 1 # 2 /\
    buffer (sound (visualizer (decoded ([] ++ []) (Some {| buffer_id := 7 |}) a)))
      = Some {| buffer_id := 7 |} /\
    pending (decoded ([] ++ []) (Some {| buffer_id := 7 |}) a) = [] ++ [].
Proof.
  destruct (startApp_spec 2 2) as (a & Ha & _ & _ & Hp & _).
  assert (R : reachable blank_draw (Running a))
    by (eapply Relation_Operators.rt1n_trans; [eapply step_start; exact Ha | apply rt1n_refl]).
  exists a. split; [exact R|]. split; [exact Hp|].
  exact (decode_success_plays blank_draw a [] TRACK [] {| buffer_id := 7 |} R Hp).
Defined.

(** C19: no playback before a successful decode.  In every reachable
    state where the track's request is still queued, the sound has no
    buffer and is not playing: [play] is only reached from the decode
    callback (lines 38-43). *)
Theorem no_playback_while_pending draw a :
  reachable draw (Running a) -> pending a <> [] ->
  isPlaying (sound (visualizer a)) = false /\ buffer (sound (visualizer a)) = None.
Proof.
  intros R Hp. destruct (load_inv_reachable draw a R) as [(_ & H1 & H2)|H]; [done|contradiction].
Qed.

Lemma no_playback_while_pending_witness :
  exists a, reachable blank_draw (Running a) /\ pending a <> [] /\
    isPlaying (sound (visualizer a)) = false /\ buffer (sound (visualizer a)) = None.
Proof.
  destruct (startApp_spec 2 2) as (a & Ha & _ & _ & Hp & _).
  assert (R : reachable blank_draw (Running a))
    by (eapply Relation_Operators.rt1n_trans; [eapply step_start; exact Ha | apply rt1n_refl]).
  assert (Hne : pending a <> []) by (rewrite Hp; discriminate).
  exists a. split; [exact R|]. split; [exact Hne|].
  exact (no_playback_while_pending blank_draw a R Hne).
Defined.

(** C20: a failed decode stays silent.  When the decode of the track's
    request fails (the loader has no error callback, line 38), the sound
    never plays afterwards, whatever frames follow: no other request is
    ever made. *)
Theorem failed_decode_silent draw a pre path post a' :
  reachable draw (Running a) -> pending a = pre ++ path :: post ->
  clos_refl_trans_1n _ (step draw) (Running (decoded (pre ++ post) None a)) (Running a') ->
  isPlaying (sound (visualizer a')) = false.
Proof.
  intros R Hp Hrun.
  destruct (load_inv_reachable draw a R) as [(Ht & Hpl & _)|H]; [|by rewrite H in Hp; destruct pre].
  pose proof Hp as Hq. rewrite Ht in Hq. apply pending_track_split in Hq as [-> ->].
  assert (R' : reachable draw (Running (decoded ([] ++ []) None a)))
    by (eapply reachable_step; [exact R | by apply step_decoded with (path := path)]).
  apply (silent_phase_steps draw _ _ Hrun R'). by split.
Qed.

Lemma failed_decode_silent_witness :
  exists a, reachable blank_draw (Running a) /\ pending a = [] ++ TRACK :: [] /\
    clos_refl_trans_1n _ (step blank_draw) (Running (decoded ([] ++ []) None a))
      (Running (decoded ([] ++ []) None a)) /\
    isPlaying (sound (visualizer (decoded ([] ++ []) None a))) = false.
Proof.
  destruct (startApp_spec 2 2) as (a & Ha & _ & _ & Hp & _).
  assert (R : reachable blank_draw (Running a))
    by (eapply Relation_Operators.rt1n_trans; [eapply step_start; exact Ha | apply rt1n_refl]).
  assert (Hr : clos_refl_trans_1n _ (step blank_draw) (Running (decoded ([] ++ []) None a))
                 (Running (decoded ([] ++ []) None a))) by apply rt1n_refl.
  exists a. split; [exact R|]. split; [exact Hp|]. split; [exact Hr|].
  exact (failed_decode_silent blank_draw a [] TRACK [] _ R Hp Hr).
Defined.

(** C21: the shader's uniforms keep their type.  In every reachable
    state, [uTime] and [uAudioFrequency] hold numbers: both are created
    as [{value: 0}] (lines 26, 92) and only ever written numbers (lines
    52, 166). *)
Theorem uniforms_are_floats draw a : reachable draw (Running a) -> float_uniforms a.
Proof.
  apply reachable_preserved.
  - intros w h a0 Ha. destruct (startApp_spec w h) as (a1 & Ha1 & _ & _ & _ & _ & _ & Hu).
    rewrite Ha in Ha1. injection Ha1 as <-. unfold float_uniforms. rewrite Hu. split; eexists.
    + rewrite assign_uniform_lookup_ne by done. apply assign_uniform_lookup.
    + apply assign_uniform_lookup.
  - intros ts bins a0 c' _ _. unfold float_uniforms. cbn [material_uniforms set_composer tick_result].
    split; eexists.
    + apply assign_uniform_lookup.
    + rewrite assign_uniform_lookup_ne by done. apply assign_uniform_lookup.
  - intros a0 pre path post res _ H _. exact H.
Qed.

Lemma uniforms_are_floats_witness :
  exists a, reachable blank_draw (Running a) /\ float_uniforms a.
Proof.
  destruct (reachable_start 2 2) as (a & _ & R). exists a.
  split; [exact R | exact (uniforms_are_floats blank_draw a R)].
Defined.

(** C22: the scene graph is built once.  In every reachable state the
    scene holds the white directional light of intensity 1, the white
    ambient light of intensity 0.5 and the icosahedron of radius 2 and
    detail 200, in that order, with the audio listener as the mesh's
    only child (lines 28-29, 68-70, 86, 94, 100): frames and decode
    events never add or remove an object. *)
Theorem scene_fixed draw a : reachable draw (Running a) -> scene a = app_scene.
Proof.
  apply (reachable_preserved draw (fun a => scene a = app_scene)).
  - apply startApp_scene.
  - intros ts bins a0 c' _ H. exact H.
  - intros a0 pre path post res _ H _. exact H.
Qed.

Lemma scene_fixed_witness : exists a, reachable blank_draw (Running a) /\ scene a = app_scene.
Proof.
  destruct (reachable_start 2 2) as (a & _ & R). exists a.
  split; [exact R | exact (scene_fixed blank_draw a R)].
Defined.

(** C26: the audio uniform ranges over [0, 5.1], bounds included.  In
    every reachable state [uAudioFrequency] holds a number between 0 and
    255/50: it starts at 0 (line 26) and each frame writes the analyser's
    average, a mean of bytes, divided by 50 (line 51).  The upper bound
    is reached: from any reachable state, a frame whose 16 bins are all
    255 writes exactly 5.1.  The spec's roughly [0, 1] (section 4.2)
    holds only for quiet input. *)
Theorem audio_uniform_range draw a ts :
  reachable draw (Running a) ->
  0 <= read_float (material_uniforms a) "uAudioFrequency" <= 51 # 10 /\
  exists a', frame draw ts (repeat xff 16) a = inr a' /\
    read_float (material_uniforms a') "uAudioFrequency" == 51 # 10.
Proof.
  intros R. split.
  - revert a R. apply (reachable_preserved draw
      (fun a => 0 <= read_float (material_uniforms a) "uAudioFrequency" <= 51 # 10)).
    + intros w h a0 Ha. destruct (startApp_spec w h) as (a1 & Ha1 & _ & _ & _ & _ & _ & Hu).
      rewrite Ha in Ha1. injection Ha1 as <-. rewrite Hu, read_float_assign. lra.
    + intros ts' bins a0 c' (_ & _ & _ & Hl & _) _. cbn [material_uniforms set_composer tick_result].
      rewrite read_float_assign_ne, read_float_assign by done.
      assert (Hne : data (analyzer (visualizer a0)) <> []) by (intros E; rewrite E in Hl; discriminate).
      pose proof (average_in_byte_range bins _ Hne) as [H0 H1].
      unfold Qdiv. change (/ 50) with (1 # 50). lra.
    + intros a0 pre path post res _ H _. exact H.
  - pose proof (reachable_inv draw a R) as Hinv.
    destruct (frame_spec draw ts (repeat xff 16) a Hinv) as (c' & o & Hf & _).
    eexists. split; [exact Hf|]. cbn [material_uniforms set_composer tick_result].
    rewrite read_float_assign_ne, read_float_assign by done.
    destruct Hinv as (_ & _ & _ & Hl & _).
    rewrite getAverageFrequency_fst, getFrequencyData_length_eq, getFrequencyData_length
      by (rewrite Hl, repeat_length; lia).
    rewrite Hl. reflexivity.
Qed.

Lemma audio_uniform_range_witness :
  exists a, reachable blank_draw (Running a) /\
    0 <= read_float (material_uniforms a) "uAudioFrequency" <= 51 # 10 /\
    exists a', frame blank_draw 0 (repeat xff 16) a = inr a' /\
      read_float (material_uniforms a') "uAudioFrequency" == 51 # 10.
Proof.
  destruct (reachable_start 2 2) as (a & _ & R). exists a.
  split; [exact R | exact (audio_uniform_range blank_draw a 0 R)].
Defined.

Lemma MOTION_BLUR_AMOUNT_in_unit : in_unit MOTION_BLUR_AMOUNT.
Proof. unfold in_unit, MOTION_BLUR_AMOUNT. lra. Qed.
Lemma vzero_in_unit : vec4_in_unit vzero.
Proof. apply vec4_in_unit_Vec4; apply in_unit_0. Qed.
#[local] Hint Resolve MOTION_BLUR_AMOUNT_in_unit vzero_in_unit : viz.

Section Display.
Context (draw : Uniforms -> Euler -> Texture).
Hypothesis draw_in_unit : forall u e, tex_in_unit (draw u e).

(** The save target's history is an image of colours in [0, 1] in every
    reachable state when every drawn scene is. *)
Lemma reachable_history_in_unit a :
  reachable draw (Running a) -> tex_in_unit (composer_history (composer a)).
Proof.
  apply (reachable_ind draw (fun a => tex_in_unit (composer_history (composer a)))).
  - intros w h a0 Ha. destruct (startApp_spec w h) as (a1 & Ha1 & _ & _ & _ & Hh & _).
    rewrite Ha in Ha1. injection Ha1 as <-. rewrite Hh. auto with viz.
  - intros a0 a' ts bins Hi H Hfr.
    destruct (frame_spec draw ts bins a0 Hi) as (c' & o & Hf & _ & _ & Hh & _).
    rewrite Hfr in Hf. injection Hf as ->. cbn [composer set_composer]. rewrite Hh.
    unfold blur_step. auto with viz.
  - intros a0 pre path post res _ H _. exact H.
Qed.

(** C27: every displayed frame is a valid image.  When the renderer draws
    colours in [0, 1], every refresh from a reachable state puts on the
    screen an image whose channels are all in [0, 1], and leaves such an
    image in the save target: the motion-blur feedback loop never drives
    a colour out of range. *)
Theorem frame_output_in_unit a a' ts bins :
  reachable draw (Running a) -> frame draw ts bins a = inr a' ->
  exists o, screen (composer a') = Some o /\ tex_in_unit o /\
    tex_in_unit (composer_history (composer a')).
Proof.
  intros R Hfr. pose proof (reachable_history_in_unit a R) as HA.
  destruct (frame_spec draw ts bins a (reachable_inv draw a R)) as (c' & o & Hf & Ho & Hout & Hh & _).
  rewrite Hfr in Hf. injection Hf as ->. exists o. cbn [composer set_composer].
  split; [exact Ho|]. rewrite Hout, Hh. unfold blur_step. split; auto with viz.
Qed.
End Display.

Lemma blank_draw_in_unit u e : tex_in_unit (blank_draw u e).
Proof. unfold blank_draw. auto with viz. Qed.

Lemma frame_output_in_unit_witness :
  exists a a', (forall u e, tex_in_unit (blank_draw u e)) /\
    reachable blank_draw (Running a) /\ frame blank_draw 0 (repeat x00 16) a = inr a' /\
    exists o, screen (composer a') = Some o /\ tex_in_unit o /\
      tex_in_unit (composer_history (composer a')).
Proof.
  destruct (reachable_start 2 2) as (a & _ & R).
  destruct (frame_spec blank_draw 0 (repeat x00 16) a (reachable_inv _ _ R)) as (c' & o & Hf & _).
  exists a, (set_composer (tick_result 0 (repeat x00 16) a) c').
  split; [exact blank_draw_in_unit|]. split; [exact R|]. split; [exact Hf|].
  exact (frame_output_in_unit blank_draw blank_draw_in_unit a _ 0 (repeat x00 16) R Hf).
Defined.

(** C28: the application refines the spec, frame by frame.  From
    [startApp], for any sequence of refreshes with the analyser's 16
    bins, no refresh fails, and the screen shows exactly the frames of
    the motion-blur contract (blend at 0.725 with the history, history
    kept in 8 bits, from transparent black) applied to the scenes the
    spec describes: drawn from [uTime = timestamp / 1000], [uAudioFrequency
    = mean of the 16 bins / 50] and the rotation turned once per frame
    from [(0, 0, 1)]. *)
Theorem app_display_refines draw w h inputs a :
  startApp w h = inr a -> Forall (fun i => length (snd i) = 16%nat) inputs ->
  exists outs a', run_frames_trace draw inputs a = inr (outs, a') /\
    Forall2 (fun o s => exists t, o = Some t /\ t ≡ s) outs
      (run_outputs MOTION_BLUR_AMOUNT UnsignedByteType (tconst vzero)
         (spec_scenes draw (Euler3 0 0 1) inputs)).
Proof.
  intros Ha Hl. destruct (startApp_spec w h) as (a0 & Ha0 & Hinv & Hrot & _ & Hh & _ & Hu).
  rewrite Ha in Ha0. injection Ha0 as <-.
  replace (Euler3 0 0 1) with (rotation a) by (rewrite Hrot; reflexivity).
  apply run_frames_trace_refines; [exact Hinv | | by rewrite Hh | exact Hl].
  rewrite Hu. apply only_two_slots_assign; [by right|].
  apply only_two_slots_assign; [by left|]. apply only_two_slots_empty.
Qed.

Lemma app_display_refines_witness :
  exists a, startApp 2 2 = inr a /\
    Forall (fun i => length (snd i) = 16%nat) [(0, repeat x10 16); (16, repeat x20 16)] /\
    exists outs a', run_frames_trace blank_draw [(0, repeat x10 16); (16, repeat x20 16)] a
                    = inr (outs, a') /\
      Forall2 (fun o s => exists t, o = Some t /\ t ≡ s) outs
        (run_outputs MOTION_BLUR_AMOUNT UnsignedByteType (tconst vzero)
           (spec_scenes blank_draw (Euler3 0 0 1) [(0, repeat x10 16); (16, repeat x20 16)])).
Proof.
  destruct (startApp_spec 2 2) as (a & Ha & _).
  assert (Hl : Forall (fun i => length (snd i) = 16%nat) [(0, repeat x10 16); (16, repeat x20 16)])
    by (repeat constructor).
  exists a. split; [exact Ha|]. split; [exact Hl|].
  exact (app_display_refines blank_draw 2 2 _ a Ha Hl).
Defined.
